(** * helm-push: the command of [cmd/helmpush/main.go]

    A shallow embedding of the plugin's entry point: the resolution of the
    settings from flags, environment and credentials file, the two
    operations [push] and [download], and the interpretation of the
    server's answer.

    Go strings are byte strings and are modelled by [string] (one [ascii]
    per byte); Go's [int] holds only HTTP status codes here and is modelled
    by [Z]; a Go [error] is modelled by its message, and a possibly-nil
    error by [option error].  The process environment and the file system
    are a [World] threaded through a small state monad whose computations
    may also panic (a nil pointer dereference).  The packages the command
    calls ([pkg/helm], [pkg/chartmuseum], the YAML decoder, the parsing of
    a URL authority) are the fields of the class [Collaborators]. *)

From Stdlib Require Import ZArith String Ascii List Bool Lia.
From stdpp Require Import gmap strings list fin_maps pretty.

Open Scope string_scope.

(** * Part 1: the fragments of Go's standard library that the command uses *)

Definition error := string.

(** [s[n:]] and [s[:n]] on byte strings. *)
Fixpoint str_drop (n : nat) (s : string) : string :=
  match n, s with
  | 0, _ => s
  | S _, "" => ""
  | S n', String _ s' => str_drop n' s'
  end.

Fixpoint str_take (n : nat) (s : string) : string :=
  match n, s with
  | 0, _ => ""
  | S _, "" => ""
  | S n', String c s' => String c (str_take n' s')
  end.

(** [strings.HasPrefix(s, prefix)]. *)
Fixpoint strings_HasPrefix (s pre : string) {struct pre} : bool :=
  match pre, s with
  | "", _ => true
  | String _ _, "" => false
  | String a pre', String b s' => Ascii.eqb a b && strings_HasPrefix s' pre'
  end.

(** [strings.Index(s, substr)]: the position of the first occurrence of
    [substr] in [s]; Go's [-1] is [None]. *)
Fixpoint strings_Index (s substr : string) : option nat :=
  if strings_HasPrefix s substr then Some 0
  else match s with
       | "" => None
       | String _ s' => S <$> strings_Index s' substr
       end.

(** The loop of [strings.Replace(s, old, new, n)] for a count [n >= 0]: at
    most [n] occurrences are replaced, leftmost first, without overlap.
    For the empty pattern Go inserts [new] before the string and then after
    each UTF-8 sequence; the model steps over single bytes there (the
    command only ever passes the pattern [cm://]). *)
Fixpoint Replace_loop (n : nat) (first : bool) (s old new : string) : string :=
  match n with
  | 0 => s
  | S n' =>
      let found :=
        if String.eqb old "" then
          (if first then Some 0 else match s with "" => None | _ => Some 1 end)
        else strings_Index s old in
      match found with
      | None => s
      | Some j =>
          str_take j s +:+ new +:+
          Replace_loop n' false (str_drop (j + String.length old) s) old new
      end
  end.

Definition strings_Replace (s old new : string) (n : nat) : string :=
  if String.eqb old new then s else Replace_loop n true s old new.

(** [strings.Split(s, sep)] is [genSplit(s, sep, 0, -1)]: cut at every
    occurrence of [sep], leftmost first.  Go bounds the loop by
    [Count(s, sep)]; the model bounds it by the length of [s], which is at
    least that. With the empty separator Go explodes [s] into its UTF-8
    sequences; the model explodes it into bytes. *)
Fixpoint genSplit (fuel : nat) (s sep : string) : list string :=
  match fuel with
  | 0 => [s]
  | S fuel' =>
      match strings_Index s sep with
      | None => [s]
      | Some m => str_take m s :: genSplit fuel' (str_drop (m + String.length sep) s) sep
      end
  end.

Definition strings_Split (s sep : string) : list string :=
  if String.eqb sep "" then (fun c => String c "") <$> list_ascii_of_string s
  else genSplit (String.length s) s sep.

(** [strings.Join(elems, sep)]. *)
Fixpoint strings_Join (elems : list string) (sep : string) : string :=
  match elems with
  | [] => ""
  | [e] => e
  | e :: rest => e +:+ sep +:+ strings_Join rest sep
  end.

(** [strings.ToLower] on the ASCII letters (the only ones a URL scheme can
    hold). *)
Definition ascii_lower (c : ascii) : ascii :=
  let n := nat_of_ascii c in
  if (65 <=? n)%nat && (n <=? 90)%nat then ascii_of_nat (n + 32) else c.

Fixpoint strings_ToLower (s : string) : string :=
  match s with
  | "" => ""
  | String c s' => String (ascii_lower c) (strings_ToLower s')
  end.

(** [strconv.ParseBool]: the accepted spellings, and [false] together with
    an error for everything else. *)
Definition strconv_ParseBool (str : string) : bool * option error :=
  if List.existsb (String.eqb str) ["1"; "t"; "T"; "true"; "TRUE"; "True"] then (true, None)
  else if List.existsb (String.eqb str) ["0"; "f"; "F"; "false"; "FALSE"; "False"] then (false, None)
  else (false, Some ("strconv.ParseBool: parsing " +:+ str +:+ ": invalid syntax")).

(** The verb [%d] of [fmt]. *)
Definition fmt_d (n : Z) : string := pretty n.

(** ** Unicode: [unicode/utf8] and [unicode/utf16] *)

Definition rune := N.

Definition RuneError : rune := 65533%N.

Definition byte_of (n : N) : ascii := ascii_of_N n.

(** [utf8.EncodeRune]: surrogates and values above U+10FFFF are encoded as
    [RuneError]. *)
Definition utf8_EncodeRune (r : rune) : string :=
  let enc3 (r : rune) :=
    String (byte_of (N.lor 224 (N.shiftr r 12)))
      (String (byte_of (N.lor 128 (N.land (N.shiftr r 6) 63)))
         (String (byte_of (N.lor 128 (N.land r 63))) "")) in
  if (r <=? 127)%N then String (byte_of r) ""
  else if (r <=? 2047)%N then
    String (byte_of (N.lor 192 (N.shiftr r 6)))
      (String (byte_of (N.lor 128 (N.land r 63))) "")
  else if (1114111 <? r)%N || ((55296 <=? r)%N && (r <=? 57343)%N) then enc3 RuneError
  else if (r <=? 65535)%N then enc3 r
  else
    String (byte_of (N.lor 240 (N.shiftr r 18)))
      (String (byte_of (N.lor 128 (N.land (N.shiftr r 12) 63)))
         (String (byte_of (N.lor 128 (N.land (N.shiftr r 6) 63)))
            (String (byte_of (N.lor 128 (N.land r 63))) ""))).

Definition in_range (lo hi b : N) : bool := (lo <=? b)%N && (b <=? hi)%N.

(** [utf8.DecodeRune]: the rune at the head of [s] and its width; an
    invalid or truncated sequence is [(RuneError, 1)]. The second byte's
    range depends on the first (Go's [acceptRanges]). *)
Definition utf8_DecodeRune (s : string) : rune * nat :=
  match s with
  | "" => (RuneError, 0)
  | String c0 s1 =>
      let p0 := N_of_ascii c0 in
      if (p0 <? 128)%N then (p0, 1)
      else
        let size : nat :=
          if in_range 194 223 p0 then 2
          else if in_range 224 239 p0 then 3
          else if in_range 240 244 p0 then 4 else 0 in
        let lo := if (p0 =? 224)%N then 160%N else if (p0 =? 240)%N then 144%N else 128%N in
        let hi := if (p0 =? 237)%N then 159%N else if (p0 =? 244)%N then 143%N else 191%N in
        match size, s1 with
        | 0, _ | _, "" => (RuneError, 1)
        | _, String c1 s2 =>
            let b1 := N_of_ascii c1 in
            if negb (in_range lo hi b1) then (RuneError, 1)
            else if (size <=? 2)%nat then
              (N.lor (N.shiftl (N.land p0 31) 6) (N.land b1 63), 2)
            else
              match s2 with
              | "" => (RuneError, 1)
              | String c2 s3 =>
                  let b2 := N_of_ascii c2 in
                  if negb (in_range 128 191 b2) then (RuneError, 1)
                  else if (size <=? 3)%nat then
                    (N.lor (N.shiftl (N.land p0 15) 12)
                       (N.lor (N.shiftl (N.land b1 63) 6) (N.land b2 63)), 3)
                  else
                    match s3 with
                    | "" => (RuneError, 1)
                    | String c3 _ =>
                        let b3 := N_of_ascii c3 in
                        if negb (in_range 128 191 b3) then (RuneError, 1)
                        else
                          (N.lor (N.shiftl (N.land p0 7) 18)
                             (N.lor (N.shiftl (N.land b1 63) 12)
                                (N.lor (N.shiftl (N.land b2 63) 6) (N.land b3 63))), 4)
                    end
              end
        end
  end.

(** [utf16.IsSurrogate] and [utf16.DecodeRune]; the latter on an optional
    second unit, absent when [getu4] found no escape. A failure (Go's
    U+FFFD) is [None]. *)
Definition utf16_IsSurrogate (r : rune) : bool := in_range 55296 57343 r.

Definition utf16_DecodeRune (r1 : rune) (r2 : option rune) : option rune :=
  match r2 with
  | Some r2 =>
      if in_range 55296 56319 r1 && in_range 56320 57343 r2
      then Some (N.shiftl (r1 - 55296) 10 + (r2 - 56320) + 65536)%N
      else None
  | None => None
  end.

(** ** [encoding/json]: decoding into [struct { Error string `json:"error"` }]

    [json.Unmarshal] first checks that the whole input is one valid JSON
    text ([checkValid]) and only then decodes it.  The model parses the
    text into a tree and then walks the tree as the decoder walks the
    input.  The nesting limit of later Go versions is not modelled. *)

#[warnings="-register-all"]
Inductive json : Type :=
| JNull
| JBool (b : bool)
| JNumber (lit : string)
| JString (s : string)
| JArray (elems : list json)
| JObject (members : list (string * json)).

Inductive parsed (A : Type) : Type :=
| Parsed (a : A) (rest : string)
| SyntaxError
| OutOfFuel.
Arguments Parsed {A} a rest.
Arguments SyntaxError {A}.
Arguments OutOfFuel {A}.

Definition dquote : ascii := ascii_of_nat 34.
Definition backslash : ascii := ascii_of_nat 92.

Definition is_space (c : ascii) : bool :=
  let n := nat_of_ascii c in
  (n =? 32)%nat || (n =? 9)%nat || (n =? 13)%nat || (n =? 10)%nat.

Fixpoint skip_ws (s : string) : string :=
  match s with
  | String c s' => if is_space c then skip_ws s' else s
  | "" => ""
  end.

Definition is_digit (c : ascii) : bool :=
  let n := nat_of_ascii c in (48 <=? n)%nat && (n <=? 57)%nat.

Definition hex_val (c : ascii) : option N :=
  let n := N_of_ascii c in
  if in_range 48 57 n then Some (n - 48)%N
  else if in_range 97 102 n then Some (n - 87)%N
  else if in_range 65 70 n then Some (n - 55)%N
  else None.

(** [getu4]: the code unit of an escape [\uXXXX] at the head of [s]. *)
Definition getu4 (s : string) : option rune :=
  match s with
  | String b (String u (String h1 (String h2 (String h3 (String h4 _))))) =>
      if Ascii.eqb b backslash && Ascii.eqb u "u" then
        match hex_val h1, hex_val h2, hex_val h3, hex_val h4 with
        | Some a, Some b, Some c, Some d => Some (a * 4096 + b * 256 + c * 16 + d)%N
        | _, _, _, _ => None
        end
      else None
  | _ => None
  end.

(** The one-letter escapes of a JSON string. *)
Definition simple_escape (e : ascii) : option ascii :=
  if Ascii.eqb e dquote then Some dquote
  else if Ascii.eqb e backslash then Some backslash
  else if Ascii.eqb e "/" then Some "/"%char
  else if Ascii.eqb e "b" then Some (ascii_of_nat 8)
  else if Ascii.eqb e "f" then Some (ascii_of_nat 12)
  else if Ascii.eqb e "n" then Some (ascii_of_nat 10)
  else if Ascii.eqb e "r" then Some (ascii_of_nat 13)
  else if Ascii.eqb e "t" then Some (ascii_of_nat 9)
  else None.

(** The scanner inside a string literal, after its opening quote: the
    literal's contents, escapes still in place, and the input after the
    closing quote. *)
Fixpoint scan_string (s : string) : option (string * string) :=
  match s with
  | "" => None
  | String c s' =>
      if Ascii.eqb c dquote then Some ("", s')
      else if Ascii.eqb c backslash then
        match s' with
        | "" => None
        | String e s'' =>
            if Ascii.eqb e "u" then
              match getu4 s, s'' with
              | Some _, String h1 (String h2 (String h3 (String h4 s5))) =>
                  match scan_string s5 with
                  | Some (r, rest) =>
                      Some (String c (String e (String h1 (String h2 (String h3 (String h4 r))))), rest)
                  | None => None
                  end
              | _, _ => None
              end
            else
              match simple_escape e, scan_string s'' with
              | Some _, Some (r, rest) => Some (String c (String e r), rest)
              | _, _ => None
              end
        end
      else if (nat_of_ascii c <? 32)%nat then None
      else
        match scan_string s' with
        | Some (r, rest) => Some (String c r, rest)
        | None => None
        end
  end.

(** [unquoteBytes] on the contents of a literal: escapes are resolved, a
    pair of surrogate escapes becomes one rune, a lone surrogate and every
    byte that does not start a valid UTF-8 sequence become U+FFFD. Each
    step consumes at least one byte, so the length of the input bounds the
    number of steps. *)
Fixpoint unquote_loop (fuel : nat) (s : string) : option string :=
  match s, fuel with
  | "", _ => Some ""
  | _, 0 => None
  | String c s', S fuel' =>
      if Ascii.eqb c backslash then
        match s' with
        | "" => None
        | String e s'' =>
            if Ascii.eqb e "u" then
              match getu4 s with
              | None => None
              | Some rr =>
                  let rest := str_drop 6 s in
                  if utf16_IsSurrogate rr then
                    match utf16_DecodeRune rr (getu4 rest) with
                    | Some dec =>
                        String.append (utf8_EncodeRune dec) <$> unquote_loop fuel' (str_drop 6 rest)
                    | None =>
                        String.append (utf8_EncodeRune RuneError) <$> unquote_loop fuel' rest
                    end
                  else String.append (utf8_EncodeRune rr) <$> unquote_loop fuel' rest
              end
            else
              match simple_escape e with
              | Some b => String b <$> unquote_loop fuel' s''
              | None => None
              end
        end
      else if Ascii.eqb c dquote || (nat_of_ascii c <? 32)%nat then None
      else if (nat_of_ascii c <? 128)%nat then String c <$> unquote_loop fuel' s'
      else
        let '(rr, size) := utf8_DecodeRune s in
        String.append (utf8_EncodeRune rr) <$> unquote_loop fuel' (str_drop size s)
  end.

Definition unquote (s : string) : option string := unquote_loop (String.length s) s.

(** The scanner on a number: an optional minus sign, then a zero or a
    non-zero digit followed by digits, then optionally a point and at
    least one digit, then optionally an exponent mark, an optional sign
    and at least one digit. The result is the input after the number. *)
Fixpoint skip_digits (s : string) : string :=
  match s with
  | String c s' => if is_digit c then skip_digits s' else s
  | "" => ""
  end.

Definition scan_digits1 (s : string) : option string :=
  match s with
  | String c s' => if is_digit c then Some (skip_digits s') else None
  | "" => None
  end.

Definition scan_number (s : string) : option string :=
  let s1 := match s with String c s' => if Ascii.eqb c "-" then s' else s | "" => s end in
  let after_int :=
    match s1 with
    | String c s2 =>
        if Ascii.eqb c "0" then Some s2
        else if is_digit c then Some (skip_digits s2) else None
    | "" => None
    end in
  let after_frac :=
    match after_int with
    | Some (String c r as s3) => if Ascii.eqb c "." then scan_digits1 r else Some s3
    | other => other
    end in
  match after_frac with
  | Some (String c r as s4) =>
      if Ascii.eqb c "e" || Ascii.eqb c "E" then
        match r with
        | String sg r' => if Ascii.eqb sg "+" || Ascii.eqb sg "-" then scan_digits1 r' else scan_digits1 r
        | "" => None
        end
      else Some s4
  | other => other
  end.

(** The value grammar. Every recursive call is made on a strictly shorter
    input or, for the first element of an array, after a bracket was
    consumed, so a fuel of twice the length of the input (and two more) is
    never exhausted: see [parse_fuel]. *)
Fixpoint parse_value (fuel : nat) (s : string) {struct fuel} : parsed json :=
  match fuel with
  | 0 => OutOfFuel
  | S fuel' =>
      match skip_ws s with
      | "" => SyntaxError
      | String c rest as s0 =>
          if Ascii.eqb c "{" then
            match skip_ws rest with
            | String c' r as s1 =>
                if Ascii.eqb c' "}" then Parsed (JObject []) r
                else
                  match parse_members fuel' s1 with
                  | Parsed ms r' => Parsed (JObject ms) r'
                  | SyntaxError => SyntaxError
                  | OutOfFuel => OutOfFuel
                  end
            | "" => SyntaxError
            end
          else if Ascii.eqb c "[" then
            match skip_ws rest with
            | String c' r as s1 =>
                if Ascii.eqb c' "]" then Parsed (JArray []) r
                else
                  match parse_elements fuel' s1 with
                  | Parsed es r' => Parsed (JArray es) r'
                  | SyntaxError => SyntaxError
                  | OutOfFuel => OutOfFuel
                  end
            | "" => SyntaxError
            end
          else if Ascii.eqb c dquote then
            match scan_string rest with
            | Some (raw, r) =>
                match unquote raw with
                | Some str => Parsed (JString str) r
                | None => SyntaxError
                end
            | None => SyntaxError
            end
          else if strings_HasPrefix s0 "true" then Parsed (JBool true) (str_drop 4 s0)
          else if strings_HasPrefix s0 "false" then Parsed (JBool false) (str_drop 5 s0)
          else if strings_HasPrefix s0 "null" then Parsed JNull (str_drop 4 s0)
          else
            match scan_number s0 with
            | Some r => Parsed (JNumber (str_take (String.length s0 - String.length r) s0)) r
            | None => SyntaxError
            end
      end
  end

with parse_members (fuel : nat) (s : string) {struct fuel} : parsed (list (string * json)) :=
  match fuel with
  | 0 => OutOfFuel
  | S fuel' =>
      match skip_ws s with
      | String c rest =>
          if Ascii.eqb c dquote then
            match scan_string rest with
            | Some (raw, r1) =>
                match unquote raw, skip_ws r1 with
                | Some key, String c1 r2 =>
                    if Ascii.eqb c1 ":" then
                      match parse_value fuel' r2 with
                      | Parsed v r3 =>
                          match skip_ws r3 with
                          | String c3 r4 =>
                              if Ascii.eqb c3 "," then
                                match parse_members fuel' r4 with
                                | Parsed ms r5 => Parsed ((key, v) :: ms) r5
                                | SyntaxError => SyntaxError
                                | OutOfFuel => OutOfFuel
                                end
                              else if Ascii.eqb c3 "}" then Parsed [(key, v)] r4
                              else SyntaxError
                          | "" => SyntaxError
                          end
                      | SyntaxError => SyntaxError
                      | OutOfFuel => OutOfFuel
                      end
                    else SyntaxError
                | _, _ => SyntaxError
                end
            | None => SyntaxError
            end
          else SyntaxError
      | "" => SyntaxError
      end
  end

with parse_elements (fuel : nat) (s : string) {struct fuel} : parsed (list json) :=
  match fuel with
  | 0 => OutOfFuel
  | S fuel' =>
      match parse_value fuel' s with
      | Parsed v r =>
          match skip_ws r with
          | String c r' =>
              if Ascii.eqb c "," then
                match parse_elements fuel' r' with
                | Parsed es r'' => Parsed (v :: es) r''
                | SyntaxError => SyntaxError
                | OutOfFuel => OutOfFuel
                end
              else if Ascii.eqb c "]" then Parsed [v] r'
              else SyntaxError
          | "" => SyntaxError
          end
      | SyntaxError => SyntaxError
      | OutOfFuel => OutOfFuel
      end
  end.

Definition json_fuel (s : string) : nat := 2 * String.length s + 2.

(** One JSON text: a value between optional white space, and nothing
    else. *)
Definition parse_json (s : string) : parsed json :=
  match parse_value (json_fuel s) s with
  | Parsed v rest => match skip_ws rest with "" => Parsed v "" | _ => SyntaxError end
  | other => other
  end.

(** The decoder's walk for the target [struct { Error string }].  A key
    selects the field when it equals [error] exactly or up to the case of
    its letters; a string value is stored, [null] leaves the field as it
    is, any other value is recorded as a type error and skipped.  Only the
    first recorded error is kept ([saveError]), and decoding goes on. *)
Definition type_error (kind : string) (target : string) : error :=
  "json: cannot unmarshal " +:+ kind +:+ " into Go " +:+ target.

Definition json_kind (v : json) : string :=
  match v with
  | JNull => "null"
  | JBool _ => "bool"
  | JNumber _ => "number"
  | JString _ => "string"
  | JArray _ => "array"
  | JObject _ => "object"
  end.

Definition saveError (saved : option error) (e : error) : option error :=
  match saved with Some _ => saved | None => Some e end.

Definition field_matches (key : string) : bool :=
  String.eqb (strings_ToLower key) "error".

Fixpoint decode_members (ms : list (string * json)) (cur : string) (saved : option error)
  : string * option error :=
  match ms with
  | [] => (cur, saved)
  | (key, v) :: ms' =>
      if field_matches key then
        match v with
        | JString s => decode_members ms' s saved
        | JNull => decode_members ms' cur saved
        | _ => decode_members ms' cur
                 (saveError saved (type_error (json_kind v) "struct field .error of type string"))
        end
      else decode_members ms' cur saved
  end.

(** [json.Unmarshal(b, &er)] for [er] of type [struct { Error string }],
    zero on entry: the value of [er.Error] afterwards, and the error. *)
Definition json_Unmarshal_er (b : string) : string * option error :=
  match parse_json b with
  | Parsed (JObject ms) _ => decode_members ms "" None
  | Parsed JNull _ => ("", None)
  | Parsed v _ => ("", Some (type_error (json_kind v) "value of type struct { Error string }"))
  | SyntaxError => ("", Some "invalid JSON input")
  | OutOfFuel => ("", Some "invalid JSON input")
  end.

Definition quoted (s : string) : string := String dquote (s +:+ String dquote "").

(** ** [path] and [path/filepath] *)

(** The elements of a cleaned path: empty elements and [.] are dropped, an
    inner [..] removes the element before it, a [..] at the root is
    dropped and a [..] at the start of a relative path is kept. [out] is
    the result so far, last element first. *)
Fixpoint clean_elements (rooted : bool) (elems out : list string) : list string :=
  match elems with
  | [] => rev out
  | e :: rest =>
      if String.eqb e "" || String.eqb e "." then clean_elements rooted rest out
      else if String.eqb e ".." then
        match out with
        | top :: out' =>
            if String.eqb top ".." then clean_elements rooted rest (e :: out)
            else clean_elements rooted rest out'
        | [] => if rooted then clean_elements rooted rest out
                else clean_elements rooted rest (e :: out)
        end
      else clean_elements rooted rest (e :: out)
  end.

(** [path.Clean]. *)
Definition path_Clean (p : string) : string :=
  let rooted := strings_HasPrefix p "/" in
  let body := strings_Join (clean_elements rooted (strings_Split p "/") []) "/" in
  let r := if rooted then "/" +:+ body else body in
  if String.eqb r "" then "." else r.

(** [path.Join]: the non-empty elements joined by slashes, cleaned. *)
Definition path_Join (elems : list string) : string :=
  match List.filter (fun e => negb (String.eqb e "")) elems with
  | [] => ""
  | es => path_Clean (strings_Join es "/")
  end.

Fixpoint strip_trailing_slashes (s : string) : string :=
  match s with
  | "" => ""
  | String c s' =>
      let r := strip_trailing_slashes s' in
      if String.eqb r "" && Ascii.eqb c "/" then "" else String c r
  end.

(** [filepath.Base] with the separator [/]. *)
Definition filepath_Base (p : string) : string :=
  if String.eqb p "" then "."
  else
    let q := strip_trailing_slashes p in
    if String.eqb q "" then "/" else List.last (strings_Split q "/") "".

(** ** [net/url]: [url.Parse] (as of Go 1.12)

    The fields of [url.URL]. The parsing of the authority (user
    information, host and port) and the printing of a URL are left to the
    [Collaborators]; the derivation of the scheme, the path, the query
    and the fragment is modelled. *)

Record Userinfo : Type := mkUserinfo {
  ui_username : string;
  ui_password : string;
  ui_passwordSet : bool
}.

Record url_URL : Type := mkURL {
  Scheme : string;
  Opaque : string;
  User : option Userinfo;
  Host : string;
  Path : string;
  RawPath : string;
  ForceQuery : bool;
  RawQuery : string;
  Fragment : string
}.

Definition set_Path (u : url_URL) (p : string) : url_URL :=
  mkURL (Scheme u) (Opaque u) (User u) (Host u) p (RawPath u) (ForceQuery u) (RawQuery u) (Fragment u).

Definition set_Scheme (u : url_URL) (s : string) : url_URL :=
  mkURL s (Opaque u) (User u) (Host u) (Path u) (RawPath u) (ForceQuery u) (RawQuery u) (Fragment u).

Definition set_Fragment (u : url_URL) (f : string) : url_URL :=
  mkURL (Scheme u) (Opaque u) (User u) (Host u) (Path u) (RawPath u) (ForceQuery u) (RawQuery u) f.

Definition is_letter (c : ascii) : bool :=
  let n := nat_of_ascii c in
  ((97 <=? n)%nat && (n <=? 122)%nat) || ((65 <=? n)%nat && (n <=? 90)%nat).

(** [getscheme]: [getscheme_from rawurl s i] scans [s], which is
    [rawurl[i:]]; the result is the scheme and the rest, or an error. *)
Fixpoint getscheme_from (rawurl s : string) (i : nat) : error + (string * string) :=
  match s with
  | "" => inr ("", rawurl)
  | String c s' =>
      if is_letter c then getscheme_from rawurl s' (S i)
      else if is_digit c || Ascii.eqb c "+" || Ascii.eqb c "-" || Ascii.eqb c "." then
        (if (i =? 0)%nat then inr ("", rawurl) else getscheme_from rawurl s' (S i))
      else if Ascii.eqb c ":" then
        (if (i =? 0)%nat then inl "missing protocol scheme"
         else inr (str_take i rawurl, s'))
      else inr ("", rawurl)
  end.

Definition getscheme (rawurl : string) : error + (string * string) :=
  getscheme_from rawurl rawurl 0.

(** [split(s, c, cutc)] of [net/url]. *)
Definition url_split (s c : string) (cutc : bool) : string * string :=
  match strings_Index s c with
  | None => (s, "")
  | Some i => (str_take i s, if cutc then str_drop (i + String.length c) s else str_drop i s)
  end.

Fixpoint stringContainsCTLByte (s : string) : bool :=
  match s with
  | "" => false
  | String c s' =>
      let n := nat_of_ascii c in
      (n <? 32)%nat || (n =? 127)%nat || stringContainsCTLByte s'
  end.

(** [unescape] in the modes [encodePath] and [encodeFragment]: every [%]
    must be followed by two hexadecimal digits, which it stands for. *)
Fixpoint url_unescape (s : string) : error + string :=
  match s with
  | "" => inr ""
  | String c s' =>
      if Ascii.eqb c "%" then
        match s' with
        | String h1 (String h2 s'') =>
            match hex_val h1, hex_val h2, url_unescape s'' with
            | Some a, Some b, inr r => inr (String (byte_of (a * 16 + b)) r)
            | Some _, Some _, inl e => inl e
            | _, _, _ => inl ("invalid URL escape " +:+ quoted (str_take 3 s))
            end
        | _ => inl ("invalid URL escape " +:+ quoted (str_take 3 s))
        end
      else
        match url_unescape s' with
        | inr r => inr (String c r)
        | inl e => inl e
        end
  end.

Definition hex_digit (n : N) : ascii :=
  if (n <? 10)%N then byte_of (48 + n) else byte_of (55 + n).

(** [shouldEscape(c, encodePath)]: letters, digits, the marks
    [-_.~] and the reserved characters other than [?] stay as they are. *)
Definition shouldEscape_path (c : ascii) : bool :=
  if is_letter c || is_digit c then false
  else if List.existsb (Ascii.eqb c) ["-"; "_"; "."; "~"]%char then false
  else if List.existsb (Ascii.eqb c) ["$"; "&"; "+"; ","; "/"; ":"; ";"; "="; "@"]%char then false
  else true.

(** [escape(s, encodePath)]. *)
Fixpoint url_escape_path (s : string) : string :=
  match s with
  | "" => ""
  | String c s' =>
      if shouldEscape_path c then
        let n := N_of_ascii c in
        String "%" (String (hex_digit (N.shiftr n 4)) (String (hex_digit (N.land n 15))
                                                         (url_escape_path s')))
      else String c (url_escape_path s')
  end.

(** [strings.HasSuffix] and [strings.Count] (for a non-empty pattern, the
    number of cuts [strings.Split] makes). *)
Fixpoint strings_HasSuffix (s suffix : string) : bool :=
  String.eqb s suffix
  || match s with
     | "" => false
     | String _ s' => strings_HasSuffix s' suffix
     end.

Definition strings_Count (s substr : string) : nat :=
  length (strings_Split s substr) - 1.

(** * Part 2: the data of the command *)

(** The receiver of the command's methods, filled in by the flag parser
    ([useHTTP] has no flag and starts as [false]). *)
Record pushCmd : Type := mkPushCmd {
  chartName : string;
  chartVersion : string;
  repoName : string;
  username : string;
  password : string;
  accessToken : string;
  authHeader : string;
  contextPath : string;
  forceUpload : bool;
  useHTTP : bool;
  caFile : string;
  certFile : string;
  keyFile : string;
  InsecureSkipVerify : bool
}.

Definition set_chartName (p : pushCmd) (v : string) : pushCmd :=
  mkPushCmd v (chartVersion p) (repoName p) (username p) (password p) (accessToken p)
    (authHeader p) (contextPath p) (forceUpload p) (useHTTP p) (caFile p) (certFile p)
    (keyFile p) (InsecureSkipVerify p).

Definition set_repoName (p : pushCmd) (v : string) : pushCmd :=
  mkPushCmd (chartName p) (chartVersion p) v (username p) (password p) (accessToken p)
    (authHeader p) (contextPath p) (forceUpload p) (useHTTP p) (caFile p) (certFile p)
    (keyFile p) (InsecureSkipVerify p).

Definition set_username (p : pushCmd) (v : string) : pushCmd :=
  mkPushCmd (chartName p) (chartVersion p) (repoName p) v (password p) (accessToken p)
    (authHeader p) (contextPath p) (forceUpload p) (useHTTP p) (caFile p) (certFile p)
    (keyFile p) (InsecureSkipVerify p).

Definition set_password (p : pushCmd) (v : string) : pushCmd :=
  mkPushCmd (chartName p) (chartVersion p) (repoName p) (username p) v (accessToken p)
    (authHeader p) (contextPath p) (forceUpload p) (useHTTP p) (caFile p) (certFile p)
    (keyFile p) (InsecureSkipVerify p).

Definition set_accessToken (p : pushCmd) (v : string) : pushCmd :=
  mkPushCmd (chartName p) (chartVersion p) (repoName p) (username p) (password p) v
    (authHeader p) (contextPath p) (forceUpload p) (useHTTP p) (caFile p) (certFile p)
    (keyFile p) (InsecureSkipVerify p).

Definition set_authHeader (p : pushCmd) (v : string) : pushCmd :=
  mkPushCmd (chartName p) (chartVersion p) (repoName p) (username p) (password p) (accessToken p)
    v (contextPath p) (forceUpload p) (useHTTP p) (caFile p) (certFile p)
    (keyFile p) (InsecureSkipVerify p).

Definition set_contextPath (p : pushCmd) (v : string) : pushCmd :=
  mkPushCmd (chartName p) (chartVersion p) (repoName p) (username p) (password p) (accessToken p)
    (authHeader p) v (forceUpload p) (useHTTP p) (caFile p) (certFile p)
    (keyFile p) (InsecureSkipVerify p).

Definition set_useHTTP (p : pushCmd) (v : bool) : pushCmd :=
  mkPushCmd (chartName p) (chartVersion p) (repoName p) (username p) (password p) (accessToken p)
    (authHeader p) (contextPath p) (forceUpload p) v (caFile p) (certFile p)
    (keyFile p) (InsecureSkipVerify p).

Definition set_caFile (p : pushCmd) (v : string) : pushCmd :=
  mkPushCmd (chartName p) (chartVersion p) (repoName p) (username p) (password p) (accessToken p)
    (authHeader p) (contextPath p) (forceUpload p) (useHTTP p) v (certFile p)
    (keyFile p) (InsecureSkipVerify p).

Definition set_certFile (p : pushCmd) (v : string) : pushCmd :=
  mkPushCmd (chartName p) (chartVersion p) (repoName p) (username p) (password p) (accessToken p)
    (authHeader p) (contextPath p) (forceUpload p) (useHTTP p) (caFile p) v
    (keyFile p) (InsecureSkipVerify p).

Definition set_keyFile (p : pushCmd) (v : string) : pushCmd :=
  mkPushCmd (chartName p) (chartVersion p) (repoName p) (username p) (password p) (accessToken p)
    (authHeader p) (contextPath p) (forceUpload p) (useHTTP p) (caFile p) (certFile p)
    v (InsecureSkipVerify p).

Definition set_InsecureSkipVerify (p : pushCmd) (v : bool) : pushCmd :=
  mkPushCmd (chartName p) (chartVersion p) (repoName p) (username p) (password p) (accessToken p)
    (authHeader p) (contextPath p) (forceUpload p) (useHTTP p) (caFile p) (certFile p)
    (keyFile p) v.

(** The credentials file. [Contexts] is a Go map; the list holds its
    entries in the order in which the [range] loop of
    [setAccessTokenFromConfigFile] visits them, which Go leaves
    unspecified. *)
Record context : Type := mkContext {
  Name : string;
  Token : string
}.

Record config : Type := mkConfig {
  CurrentContext : string;
  Contexts : list (string * context)
}.

(** The fields of [helm.Repo] that the command reads. *)
Record helm_Repo : Type := mkRepo {
  URL : string;
  Username : string;
  Password : string
}.

(** The options passed to [cm.NewClient]. *)
Record ClientOptions : Type := mkClientOptions {
  cm_URL : string;
  cm_Username : string;
  cm_Password : string;
  cm_AccessToken : string;
  cm_AuthHeader : string;
  cm_ContextPath : string;
  cm_CAFile : string;
  cm_CertFile : string;
  cm_KeyFile : string;
  cm_InsecureSkipVerify : bool
}.

(** An [http.Response]: the status code, and what reading the body to its
    end yields ([ioutil.ReadAll]). *)
Record Response : Type := mkResponse {
  StatusCode : Z;
  Body : string;
  BodyErr : option error
}.

Definition ioutil_ReadAll (resp : Response) : string * option error :=
  (Body resp, BodyErr resp).

(** * Part 3: the world and the monad of the command *)

(** What a path of the file system holds: a directory, a readable file, a
    file that cannot be opened, or an entry that cannot even be examined
    (a search permission is missing on the way to it). *)
Inductive Node : Type :=
| Dir
| File (content : string)
| NoRead
| NoAccess.

Inductive Event : Type :=
| EvUserCurrent
| EvStat (path : string)
| EvReadFile (path : string)
| EvMkdir (path : string)
| EvRemoveAll (path : string)
| EvNewClient (opts : ClientOptions)
| EvUpload (path : string) (force : bool)
| EvDownload (filePath : string).

Record World : Type := mkWorld {
  env : gmap string string;
  home : error + string;
  fs : gmap string Node;
  stdout : string;
  trace : list Event
}.

Definition set_fs (w : World) (m : gmap string Node) : World :=
  mkWorld (env w) (home w) m (stdout w) (trace w).

Definition log (w : World) (e : Event) : World :=
  mkWorld (env w) (home w) (fs w) (stdout w) (trace w ++ [e]).

Definition print (w : World) (s : string) : World :=
  mkWorld (env w) (home w) (fs w) (stdout w +:+ s) (trace w).

(** The network calls among the events. *)
Definition is_network (e : Event) : bool :=
  match e with
  | EvUpload _ _ | EvDownload _ => true
  | _ => false
  end.

(** The accesses to the credentials file among the events. *)
Definition is_config_access (e : Event) : bool :=
  match e with
  | EvUserCurrent | EvStat _ | EvReadFile _ => true
  | _ => false
  end.

Inductive Res (A : Type) : Type :=
| Val (a : A)
| Panic (msg : string).
Arguments Val {A} a.
Arguments Panic {A} msg.

Definition M (A : Type) : Type := World -> Res A * World.

Definition ret {A : Type} (a : A) : M A := fun w => (Val a, w).

Definition bind {A B : Type} (c : M A) (k : A -> M B) : M B :=
  fun w =>
    match c w with
    | (Val a, w') => k a w'
    | (Panic msg, w') => (Panic msg, w')
    end.

Definition panic {A : Type} (msg : string) : M A := fun w => (Panic msg, w).

Declare Scope go_scope.
Delimit Scope go_scope with go.
Notation "x <- c ;; k" := (bind c (fun x => k))
  (at level 100, c at next level, right associativity) : go_scope.
Notation "c ;;; k" := (bind c (fun _ => k))
  (at level 100, right associativity) : go_scope.

(** [if err != nil { return err }] after a call that yields a value or an
    error. *)
Definition bind_err {A : Type} (c : M (error + A)) (k : A -> M (option error)) : M (option error) :=
  bind c (fun r => match r with inl e => ret (Some e) | inr a => k a end).
Notation "x <-? c ;; k" := (bind_err c (fun x => k))
  (at level 100, c at next level, right associativity) : go_scope.

(** [defer f()]: [f] runs when the body is left, by a return or by a
    panic, and the outcome of the body stands. *)
Definition defer {A : Type} (f : M unit) (body : M A) : M A :=
  fun w =>
    let '(r, w') := body w in
    (r, snd (f w')).

(** Reading a field through a pointer that may be nil. *)
Definition deref {A : Type} (x : option A) : M A :=
  match x with
  | Some a => ret a
  | None => panic "runtime error: invalid memory address or nil pointer dereference"
  end.

(** ** The operating system *)

Definition newline : string := String (ascii_of_nat 10) "".

Definition os_LookupEnv (key : string) : M (option string) :=
  fun w => (Val (env w !! key), w).

(** [user.Current()]: the home directory of the user, or an error. *)
Definition user_Current : M (error + string) :=
  fun w => (Val (home w), log w EvUserCurrent).

Inductive stat_error : Type :=
| ErrNotExist
| ErrPermission.

(** [os.Stat], of which the command keeps only the error. *)
Definition os_Stat (path : string) : M (option stat_error) :=
  fun w =>
    (Val match fs w !! path with
         | None => Some ErrNotExist
         | Some NoAccess => Some ErrPermission
         | Some _ => None
         end,
     log w (EvStat path)).

Definition os_IsNotExist (err : option stat_error) : bool :=
  match err with
  | Some ErrNotExist => true
  | _ => false
  end.

Definition ioutil_ReadFile (path : string) : M (error + string) :=
  fun w =>
    (Val match fs w !! path with
         | Some (File content) => inr content
         | Some Dir => inl ("read " +:+ path +:+ ": is a directory")
         | Some _ => inl ("open " +:+ path +:+ ": permission denied")
         | None => inl ("open " +:+ path +:+ ": no such file or directory")
         end,
     log w (EvReadFile path)).

Definition fmt_Print (s : string) : M unit := fun w => (Val tt, print w s).

Definition fmt_Println (s : string) : M unit := fmt_Print (s +:+ newline).

(** [path] is [root] or lies below it. *)
Definition under (root path : string) : bool :=
  String.eqb path root || strings_HasPrefix path (root +:+ "/").

(** [os.RemoveAll]: the path and everything below it are gone afterwards;
    the empty path is left alone. The model has no failing removal (the
    command discards the result anyway). *)
Definition os_RemoveAll (path : string) : M unit :=
  fun w =>
    if String.eqb path "" then (Val tt, w)
    else (Val tt, log (set_fs w (filter (fun kv => under path kv.1 = false) (fs w)))
                    (EvRemoveAll path)).

(** [os.TempDir()]. *)
Definition os_TempDir (w : World) : string :=
  match env w !! "TMPDIR" with
  | Some dir => if String.eqb dir "" then "/tmp" else dir
  | None => "/tmp"
  end.

(** The nine digits that [ioutil.TempDir] appends to the prefix, from a
    random number. *)
Definition random_suffix (r : N) : string :=
  str_drop 1 (pretty (1000000000 + r mod 1000000000)%N).

(** * Part 4: the collaborators

    The packages the command calls and does not define, and the sources of
    randomness and failure of the operating system. Functions that only
    look at the world take it as an argument; [helm_CreateChartPackage]
    also writes to the file system. *)
Class Collaborators : Type := {
  Chart : Type;
  Client : Type;
  (* net/url: parseAuthority and (URL).String *)
  url_parseAuthority : string -> error + (option Userinfo * string);
  url_String : url_URL -> string;
  (* github.com/ghodss/yaml, into a [config] *)
  yaml_Unmarshal : string -> error + config;
  (* pkg/helm *)
  helm_TempRepoFromURL : string -> option helm_Repo * option error;
  helm_GetRepoByName : string -> World -> option helm_Repo * option error;
  helm_GetChartByName : string -> World -> error + Chart;
  Chart_SetVersion : Chart -> string -> Chart;
  helm_CreateChartPackage :
    Chart -> string -> gmap string Node -> (error + string) * gmap string Node;
  (* pkg/chartmuseum *)
  cm_NewClient : ClientOptions -> World -> error + Client;
  Client_UploadChartPackage : Client -> string -> bool -> World -> error + Response;
  Client_DownloadFile : Client -> string -> World -> error + Response;
  (* the random numbers of ioutil.TempDir, by attempt, and a failure of
     os.Mkdir other than an existing entry *)
  nextRandom : nat -> World -> N;
  os_Mkdir_error : string -> World -> option error
}.

Section Command.

Context `{Collaborators}.

Local Open Scope go_scope.

(** ** [url.Parse] *)

Definition url_setPath (u : url_URL) (p : string) : error + url_URL :=
  match url_unescape p with
  | inl e => inl e
  | inr path =>
      inr (mkURL (Scheme u) (Opaque u) (User u) (Host u) path
             (if String.eqb p (url_escape_path path) then "" else p)
             (ForceQuery u) (RawQuery u) (Fragment u))
  end.

(** [parse(rawurl, false)]. *)
Definition url_parse (rawurl : string) : error + url_URL :=
  if stringContainsCTLByte rawurl then inl "net/url: invalid control character in URL"
  else if String.eqb rawurl "*" then inr (mkURL "" "" None "" "*" "" false "" "")
  else
    match getscheme rawurl with
    | inl e => inl e
    | inr (scheme, rest) =>
        let scheme := strings_ToLower scheme in
        let '(rest, forceQuery, rawQuery) :=
          if strings_HasSuffix rest "?" && (strings_Count rest "?" =? 1)%nat
          then (str_take (String.length rest - 1) rest, true, "")
          else let '(r, q) := url_split rest "?" true in (r, false, q) in
        if negb (strings_HasPrefix rest "/") && negb (String.eqb scheme "") then
          inr (mkURL scheme rest None "" "" "" forceQuery rawQuery "")
        else if negb (strings_HasPrefix rest "/")
                && match strings_Index rest ":", strings_Index rest "/" with
                   | Some colon, Some slash => (colon <? slash)%nat
                   | Some _, None => true
                   | None, _ => false
                   end
        then inl "first path segment in URL cannot contain colon"
        else
          let authority_rest :=
            if (negb (String.eqb scheme "") || negb (strings_HasPrefix rest "///"))
               && strings_HasPrefix rest "//"
            then
              let '(authority, rest') := url_split (str_drop 2 rest) "/" false in
              match url_parseAuthority authority with
              | inl e => inl e
              | inr (user, host) => inr (user, host, rest')
              end
            else inr (None, "", rest) in
          match authority_rest with
          | inl e => inl e
          | inr (user, host, rest') =>
              url_setPath (mkURL scheme "" user host "" "" forceQuery rawQuery "") rest'
          end
    end.

Definition url_Parse (rawurl : string) : error + url_URL :=
  let '(u, frag) := url_split rawurl "#" true in
  match url_parse u with
  | inl e => inl ("parse " +:+ u +:+ ": " +:+ e)
  | inr url =>
      if String.eqb frag "" then inr url
      else
        match url_unescape frag with
        | inl e => inl ("parse " +:+ rawurl +:+ ": " +:+ e)
        | inr f => inr (set_Fragment url f)
        end
  end.

(** ** [ioutil.TempDir] *)

(** The attempts of [ioutil.TempDir(dir, prefix)]: a name that exists is
    tried again with the next random number, [retries] more times. *)
Fixpoint TempDir_loop (retries attempt : nat) (dir prefix : string) (w : World)
  : (error + string) * World :=
  let try := path_Join [dir; prefix +:+ random_suffix (nextRandom attempt w)] in
  match fs w !! try with
  | Some _ =>
      match retries with
      | 0 => (inl ("mkdir " +:+ try +:+ ": file exists"), w)
      | S retries' => TempDir_loop retries' (S attempt) dir prefix w
      end
  | None =>
      match os_Mkdir_error try w with
      | Some e => (inl e, w)
      | None => (inr try, log (set_fs w (<[try := Dir]> (fs w))) (EvMkdir try))
      end
  end.

Definition ioutil_TempDir (dir prefix : string) : M (error + string) :=
  fun w =>
    let dir := if String.eqb dir "" then os_TempDir w else dir in
    let '(r, w') := TempDir_loop (N.to_nat 9999) 0 dir prefix w in
    (Val r, w').

(** ** The calls into [pkg/helm] and [pkg/chartmuseum] *)

Definition call_GetRepoByName (name : string) : M (option helm_Repo * option error) :=
  fun w => (Val (helm_GetRepoByName name w), w).

Definition call_GetChartByName (name : string) : M (error + Chart) :=
  fun w => (Val (helm_GetChartByName name w), w).

Definition call_CreateChartPackage (c : Chart) (outDir : string) : M (error + string) :=
  fun w =>
    let '(r, m) := helm_CreateChartPackage c outDir (fs w) in
    (Val r, set_fs w m).

Definition call_NewClient (opts : ClientOptions) : M (error + Client) :=
  fun w => (Val (cm_NewClient opts w), log w (EvNewClient opts)).

Definition call_UploadChartPackage (c : Client) (path : string) (force : bool)
  : M (error + Response) :=
  fun w => (Val (Client_UploadChartPackage c path force w), log w (EvUpload path force)).

Definition call_DownloadFile (c : Client) (filePath : string) : M (error + Response) :=
  fun w => (Val (Client_DownloadFile c filePath w), log w (EvDownload filePath)).

(** * Part 5: the command *)

(** ** [setFieldsFromEnv] (lines 106-143) *)

(** [if v, ok := os.LookupEnv(key); ok && p.field == "" { p.field = v }],
    once the variable was looked up. *)
Definition string_step (v : option string) (get : pushCmd -> string)
    (set : pushCmd -> string -> pushCmd) (p : pushCmd) : pushCmd :=
  match v with
  | Some v => if String.eqb (get p) "" then set p v else p
  | None => p
  end.

Definition string_from_env (key : string) (get : pushCmd -> string)
    (set : pushCmd -> string -> pushCmd) (p : pushCmd) : M pushCmd :=
  v <- os_LookupEnv key ;;
  ret (string_step v get set p).

(** [if v, ok := os.LookupEnv(key); ok { p.field, _ = strconv.ParseBool(v) }] *)
Definition bool_step (v : option string) (set : pushCmd -> bool -> pushCmd) (p : pushCmd)
  : pushCmd :=
  match v with
  | Some v => set p (fst (strconv_ParseBool v))
  | None => p
  end.

Definition bool_from_env (key : string) (set : pushCmd -> bool -> pushCmd) (p : pushCmd)
  : M pushCmd :=
  v <- os_LookupEnv key ;;
  ret (bool_step v set p).

(** The [range] loop of lines 162-167, over the entries in the order of
    the visit. *)
Fixpoint range_Contexts (entries : list (string * context)) (current : string) (p : pushCmd)
  : pushCmd :=
  match entries with
  | [] => p
  | (_, ctx) :: rest =>
      if String.eqb (Name ctx) current then set_accessToken p (Token ctx)
      else range_Contexts rest current p
  end.

(** [setAccessTokenFromConfigFile] (lines 145-168). *)
Definition setAccessTokenFromConfigFile (p : pushCmd) : M pushCmd :=
  usr <- user_Current ;;
  match usr with
  | inl _ => ret p
  | inr homeDir =>
      let configPath := path_Join [homeDir; ".cfconfig"] in
      st <- os_Stat configPath ;;
      if os_IsNotExist st then ret p
      else
        yamlFile <- ioutil_ReadFile configPath ;;
        match yamlFile with
        | inl _ => ret p
        | inr yamlFile =>
            match yaml_Unmarshal yamlFile with
            | inl _ => ret p
            | inr c => ret (range_Contexts (Contexts c) (CurrentContext c) p)
            end
        end
  end.

(** Lines 107-138: the environment. *)
Definition fields_from_env (p : pushCmd) : M pushCmd :=
  p <- string_from_env "HELM_REPO_USERNAME" username set_username p ;;
  p <- string_from_env "HELM_REPO_PASSWORD" password set_password p ;;
  p <- string_from_env "HELM_REPO_ACCESS_TOKEN" accessToken set_accessToken p ;;
  p <- string_from_env "HELM_REPO_AUTH_HEADER" authHeader set_authHeader p ;;
  p <- string_from_env "HELM_REPO_CONTEXT_PATH" contextPath set_contextPath p ;;
  p <- bool_from_env "HELM_REPO_USE_HTTP" set_useHTTP p ;;
  p <- string_from_env "HELM_REPO_CA_FILE" caFile set_caFile p ;;
  p <- string_from_env "HELM_REPO_CERT_FILE" certFile set_certFile p ;;
  p <- string_from_env "HELM_REPO_KEY_FILE" keyFile set_keyFile p ;;
  bool_from_env "HELM_REPO_INSECURE" set_InsecureSkipVerify p.

Definition setFieldsFromEnv (p : pushCmd) : M pushCmd :=
  p <- fields_from_env p ;;
  if String.eqb (accessToken p) "" then setAccessTokenFromConfigFile p
  else ret p.

(** ** The interpretation of a response (lines 305-339) *)

(** [getChartmuseumError]: never nil. *)
Definition getChartmuseumError (b : string) (code : Z) : error :=
  let '(er_Error, err) := json_Unmarshal_er b in
  match err with
  | Some _ => fmt_d code +:+ ": could not properly parse response JSON: " +:+ b
  | None =>
      if String.eqb er_Error ""
      then fmt_d code +:+ ": could not properly parse response JSON: " +:+ b
      else fmt_d code +:+ ": " +:+ er_Error
  end.

Definition handlePushResponse (resp : Response) : M (option error) :=
  if negb (StatusCode resp =? 201)%Z then
    let '(b, err) := ioutil_ReadAll resp in
    match err with
    | Some e => ret (Some e)
    | None => ret (Some (getChartmuseumError b (StatusCode resp)))
    end
  else
    fmt_Println "Done." ;;;
    ret None.

(** The deferred [resp.Body.Close()] has no effect that the model
    observes. *)
Definition handleDownloadResponse (resp : Response) : M (option error) :=
  let '(b, err) := ioutil_ReadAll resp in
  match err with
  | Some e => ret (Some e)
  | None =>
      if negb (StatusCode resp =? 200)%Z
      then ret (Some (getChartmuseumError b (StatusCode resp)))
      else fmt_Print b ;;; ret None
  end.

(** ** [push] (lines 170-250) *)

(** [regexp.MustCompile(`^https?://`).MatchString]. *)
Definition looks_like_URL (s : string) : bool :=
  strings_HasPrefix s "http://" || strings_HasPrefix s "https://".

(** Lines 207-213: the URL given to the client. *)
Definition push_url (p : pushCmd) (repo : helm_Repo) : string :=
  if useHTTP p then strings_Replace (URL repo) "cm://" "http://" 1
  else strings_Replace (URL repo) "cm://" "https://" 1.

(** Lines 238-249, under the deferred removal. *)
Definition push_upload (p : pushCmd) (chart : Chart) (client : Client) (tmp : string)
  : M (option error) :=
  chartPackagePath <-? call_CreateChartPackage chart tmp ;;
  fmt_Print ("Pushing " +:+ filepath_Base chartPackagePath +:+ " to " +:+ repoName p
             +:+ "..." +:+ newline) ;;;
  resp <-? call_UploadChartPackage client chartPackagePath (forceUpload p) ;;
  handlePushResponse resp.

Definition push (p : pushCmd) : M (option error) :=
  located <-
    (if looks_like_URL (repoName p) then
       let '(repo, err) := helm_TempRepoFromURL (repoName p) in
       r <- deref repo ;;
       ret (repo, err, set_repoName p (URL r))
     else
       re <- call_GetRepoByName (repoName p) ;;
       ret (fst re, snd re, p)) ;;
  let '(repo, err, p) := located in
  match err with
  | Some e => ret (Some e)
  | None =>
      chart <-? call_GetChartByName (chartName p) ;;
      let chart :=
        if negb (String.eqb (chartVersion p) "") then Chart_SetVersion chart (chartVersion p)
        else chart in
      repo <- deref repo ;;
      let username := if negb (String.eqb (username p) "") then username p else Username repo in
      let password := if negb (String.eqb (password p) "") then password p else Password repo in
      let url := push_url p repo in
      client <-? call_NewClient
                   (mkClientOptions url username password (accessToken p) (authHeader p)
                      (contextPath p) (caFile p) (certFile p) (keyFile p)
                      (InsecureSkipVerify p)) ;;
      tmp <-? ioutil_TempDir "" "helm-push-" ;;
      defer (os_RemoveAll tmp) (push_upload p chart client tmp)
  end.

(** ** [download] (lines 252-303) *)

(** Lines 258-272 on [parsedURL.Path]: [None] when there is at most one
    part; otherwise the new path of the URL and the path of the file. The
    two indexings are in range, as [numParts] is at least two. *)
Definition download_split (path : string) : option (string * string) :=
  let parts := strings_Split path "/" in
  let numParts := length parts in
  if (numParts <=? 1)%nat then None
  else
    let filePath := nth (numParts - 1) parts "" in
    let '(numRemoveParts, filePath) :=
      if String.eqb (nth (numParts - 2) parts "") "charts"
      then (2, "charts/" +:+ filePath)
      else (1, filePath) in
    Some (strings_Join (firstn (numParts - numRemoveParts) parts) "/", filePath).

(** Lines 274-302. *)
Definition download_fetch (p : pushCmd) (parsedURL : url_URL) (filePath : string)
  : M (option error) :=
  let parsedURL := set_Scheme parsedURL (if useHTTP p then "http" else "https") in
  client <-? call_NewClient
               (mkClientOptions (url_String parsedURL) (username p) (password p) (accessToken p)
                  (authHeader p) (contextPath p) (caFile p) (certFile p) (keyFile p)
                  (InsecureSkipVerify p)) ;;
  resp <-? call_DownloadFile client filePath ;;
  handleDownloadResponse resp.

Definition download (p : pushCmd) (fileURL : string) : M (option error) :=
  match url_Parse fileURL with
  | inl e => ret (Some e)
  | inr parsedURL =>
      match download_split (Path parsedURL) with
      | None => ret (Some ("invalid file url: " +:+ fileURL))
      | Some (newPath, filePath) => download_fetch p (set_Path parsedURL newPath) filePath
      end
  end.

(** ** The entry point: [RunE] of [newPushCmd] (lines 72-87)

    [p] holds the values of the flags, [args] the positional arguments. *)
Definition usage_error : error :=
  "This command needs 2 arguments: name of chart, name of chart repository (or repo URL)".

Definition RunE (p : pushCmd) (args : list string) : M (option error) :=
  if (length args =? 4)%nat && strings_HasPrefix (nth 3 args "") "cm://" then
    p <- setFieldsFromEnv p ;;
    download p (nth 3 args "")
  else if negb (length args =? 2)%nat then ret (Some usage_error)
  else
    let p := set_chartName p (nth 0 args "") in
    let p := set_repoName p (nth 1 args "") in
    p <- setFieldsFromEnv p ;;
    push p.

End Command.

(** * Part 6: a concrete set of collaborators

    A chart is its version, a client is the options it was made from, the
    repository [chartmuseum] is registered under a [cm://] URL, a URL
    whose host starts with a percent sign has no descriptor, the server
    accepts an upload only when it is forced and serves the file
    [charts/x.tgz] only. *)
Module Demo.

Definition parseAuthority (authority : string) : error + (option Userinfo * string) :=
  inr (None, authority).

Definition String (u : url_URL) : string :=
  Scheme u +:+ "://" +:+ Host u +:+ url_escape_path (Path u).

(** A one-line credentials file [token-of NAME]: the current context is
    [NAME], and the contexts are [dev] and [prod]. *)
Definition Unmarshal (yamlFile : string) : error + config :=
  if strings_HasPrefix yamlFile "token-of " then
    inr (mkConfig (str_drop 9 yamlFile)
           [("a", mkContext "dev" "dev-token"); ("b", mkContext "prod" "prod-token")])
  else inl "yaml: unmarshal error".

Definition TempRepoFromURL (url : string) : option helm_Repo * option error :=
  if strings_HasPrefix url "http://%" then (None, Some "invalid URL escape")
  else (Some (mkRepo url "" ""), None).

Definition GetRepoByName (name : string) (w : World) : option helm_Repo * option error :=
  if String.eqb name "chartmuseum" then (Some (mkRepo "cm://repo.example.com" "bob" "secret"), None)
  else (None, Some ("no repo named " +:+ name +:+ " found")).

Definition GetChartByName (name : string) (w : World) : error + string :=
  if String.eqb name "" then inl "no chart" else inr "0.1.0".

Definition CreateChartPackage (version outDir : string) (m : gmap string Node)
  : (error + string) * gmap string Node :=
  if String.eqb version "bad" then (inl "packaging failed", <[outDir +:+ "/partial" := File ""]> m)
  else
    let path := outDir +:+ "/mychart-" +:+ version +:+ ".tgz" in
    (inr path, <[path := File "archive"]> m).

Definition NewClient (opts : ClientOptions) (w : World) : error + ClientOptions :=
  if String.eqb (cm_CertFile opts) "missing.pem" then inl "cannot load certificate" else inr opts.

Definition UploadChartPackage (c : ClientOptions) (path : string) (force : bool) (w : World)
  : error + Response :=
  if force then inr (mkResponse 201 "{}" None)
  else inr (mkResponse 409 ("{" +:+ quoted "error" +:+ ":" +:+ quoted "file already exists" +:+ "}") None).

Definition DownloadFile (c : ClientOptions) (filePath : string) (w : World)
  : error + Response :=
  if String.eqb filePath "charts/x.tgz" then inr (mkResponse 200 "abc" None)
  else inr (mkResponse 404 "oops" None).

#[local] Instance collaborators : Collaborators := {|
  Chart := string;
  Client := ClientOptions;
  url_parseAuthority := parseAuthority;
  url_String := String;
  yaml_Unmarshal := Unmarshal;
  helm_TempRepoFromURL := TempRepoFromURL;
  helm_GetRepoByName := GetRepoByName;
  helm_GetChartByName := GetChartByName;
  Chart_SetVersion := fun _ v => v;
  helm_CreateChartPackage := CreateChartPackage;
  cm_NewClient := NewClient;
  Client_UploadChartPackage := UploadChartPackage;
  Client_DownloadFile := DownloadFile;
  nextRandom := fun attempt _ => N.of_nat attempt;
  os_Mkdir_error := fun _ _ => None
|}.

Definition flags : pushCmd :=
  mkPushCmd "" "" "" "" "" "" "" "" false false "" "" "" false.

Definition parsed : url_URL :=
  mkURL "cm" "" None "repo.example.com" "/a/charts/x.tgz" "" false "" "".

Definition world : World :=
  mkWorld
    (<["HELM_REPO_USERNAME" := "alice"]> (<["HELM_REPO_USE_HTTP" := "true"]> ∅))
    (inr "/home/alice")
    (<["/home/alice/.cfconfig" := File "token-of prod"]> ∅)
    ""
    [].

End Demo.

(** * Part 7: notions used to state the properties *)

(** [c] does not occur in [s]. *)
Fixpoint free_of (c : ascii) (s : string) : Prop :=
  match s with
  | "" => True
  | String a s' => a <> c /\ free_of c s'
  end.

(** The parts of [s] between the occurrences of the byte [c], by recursion
    on [s]: what [strings.Split] computes for a separator of one byte
    (lemma [strings_Split_char]). *)
Definition cons_head (a : ascii) (parts : list string) : list string :=
  match parts with
  | [] => [String a ""]
  | x :: rest => String a x :: rest
  end.

Fixpoint split_on (c : ascii) (s : string) : list string :=
  match s with
  | "" => [""]
  | String a s' => if Ascii.eqb a c then "" :: split_on c s' else cons_head a (split_on c s')
  end.

(** The precedence of a flag over the environment, for a setting that is a
    string and for one that is a boolean. [flag] is the value before
    [setFieldsFromEnv], [var] the environment variable, [result] the value
    after. *)
Definition string_rule (flag : string) (var : option string) (result : string) : Prop :=
  (flag <> "" -> result = flag)
  /\ (flag = "" -> forall v, var = Some v -> result = v)
  /\ (flag = "" -> var = None -> result = "").

Definition bool_rule (flag : bool) (var : option string) (result : bool) : Prop :=
  (forall v, var = Some v -> result = fst (strconv_ParseBool v))
  /\ (var = None -> result = flag).

(** The same for the access token, which the credentials file may supply
    when neither the flag nor the environment does. *)
Definition token_rule (flag : string) (var : option string) (result : string) : Prop :=
  (flag <> "" -> result = flag)
  /\ (flag = "" -> forall v, var = Some v -> v <> "" -> result = v).

(** The value of a string setting after the environment was consulted. *)
Definition merge_string (flag : string) (var : option string) : string :=
  match var with
  | Some v => if String.eqb flag "" then v else flag
  | None => flag
  end.

(** The events a run added to the trace. *)
Definition added (w w' : World) (evs : list Event) : Prop :=
  trace w' = (trace w ++ evs)%list.

(** The rule by which the body of a failure response becomes a message. *)
Definition envelope_rule (code : Z) (body : string) (msg : string) : Prop :=
  (forall m, json_Unmarshal_er body = (m, None) -> m <> "" ->
     msg = fmt_d code +:+ ": " +:+ m)
  /\ (snd (json_Unmarshal_er body) <> None \/ fst (json_Unmarshal_er body) = "" ->
      msg = fmt_d code +:+ ": could not properly parse response JSON: " +:+ body).

(** The settings after lines 107-138, as a function of the environment. *)
Definition env_fields (e : gmap string string) (p : pushCmd) : pushCmd :=
  let p := string_step (e !! "HELM_REPO_USERNAME") username set_username p in
  let p := string_step (e !! "HELM_REPO_PASSWORD") password set_password p in
  let p := string_step (e !! "HELM_REPO_ACCESS_TOKEN") accessToken set_accessToken p in
  let p := string_step (e !! "HELM_REPO_AUTH_HEADER") authHeader set_authHeader p in
  let p := string_step (e !! "HELM_REPO_CONTEXT_PATH") contextPath set_contextPath p in
  let p := bool_step (e !! "HELM_REPO_USE_HTTP") set_useHTTP p in
  let p := string_step (e !! "HELM_REPO_CA_FILE") caFile set_caFile p in
  let p := string_step (e !! "HELM_REPO_CERT_FILE") certFile set_certFile p in
  let p := string_step (e !! "HELM_REPO_KEY_FILE") keyFile set_keyFile p in
  bool_step (e !! "HELM_REPO_INSECURE") set_InsecureSkipVerify p.

(** Bodies used in the examples. *)
Definition body_version_exists : string :=
  "{" +:+ quoted "error" +:+ ":" +:+ quoted "version already exists" +:+ "}".

Definition response_cut_short (code : Z) : Response :=
  mkResponse code "{" (Some "unexpected EOF").

(** A path that is empty or starts with a slash. *)
Definition rooted_or_empty (s : string) : Prop :=
  s = "" \/ strings_HasPrefix s "/" = true.

(** ** Notions for the further properties *)

(** The events of a lookup in the credentials file: the user is asked
    for, the file is examined when there is a home directory, and it is
    opened when the examination did not find it missing. *)
Definition lookup_events (w : World) : list Event :=
  match home w with
  | inl _ => [EvUserCurrent]
  | inr homeDir =>
      let configPath := path_Join [homeDir; ".cfconfig"] in
      match fs w !! configPath with
      | None => [EvUserCurrent; EvStat configPath]
      | Some _ => [EvUserCurrent; EvStat configPath; EvReadFile configPath]
      end
  end.

(** A world that differs from [w] in its trace only. *)
Definition with_events (w : World) (evs : list Event) : World :=
  mkWorld (env w) (home w) (fs w) (stdout w) (trace w ++ evs).

(** Every matching entry of the credentials file holds the same token. *)
Definition tokens_agree (entries : list (string * context)) (current : string) : Prop :=
  forall k1 c1 k2 c2,
    In (k1, c1) entries -> In (k2, c2) entries ->
    Name c1 = current -> Name c2 = current -> Token c1 = Token c2.

(** A message that a JSON string literal holds as it is: printable ASCII
    without the quote and the backslash. *)
Fixpoint plain_message (m : string) : bool :=
  match m with
  | "" => true
  | String c m' =>
      (32 <=? nat_of_ascii c)%nat && (nat_of_ascii c <? 128)%nat
      && negb (Ascii.eqb c dquote) && negb (Ascii.eqb c backslash)
      && plain_message m'
  end.

(** The envelope of ChartMuseum around the message [m]. *)
Definition error_body (m : string) : string :=
  "{" +:+ quoted "error" +:+ ":" +:+ quoted m +:+ "}".

Definition fallback_message (code : Z) (b : string) : error :=
  fmt_d code +:+ ": could not properly parse response JSON: " +:+ b.

(** The message of a nil pointer dereference. *)
Definition nil_dereference : string :=
  "runtime error: invalid memory address or nil pointer dereference".

(** The options [push] makes its client from (lines 198-226). *)
Definition push_client_options (p : pushCmd) (repo : helm_Repo) : ClientOptions :=
  mkClientOptions
    (push_url p repo)
    (if negb (String.eqb (username p) "") then username p else Username repo)
    (if negb (String.eqb (password p) "") then password p else Password repo)
    (accessToken p) (authHeader p) (contextPath p) (caFile p) (certFile p) (keyFile p)
    (InsecureSkipVerify p).

(** The options [download] makes its client from (lines 280-291). *)
Definition download_client_options (p : pushCmd) (url : string) : ClientOptions :=
  mkClientOptions url (username p) (password p) (accessToken p) (authHeader p)
    (contextPath p) (caFile p) (certFile p) (keyFile p) (InsecureSkipVerify p).

(** The line [push] prints before the upload (line 243). *)
Definition pushing_line (chartPackagePath name : string) : string :=
  "Pushing " +:+ filepath_Base chartPackagePath +:+ " to " +:+ name +:+ "..." +:+ newline.


(** The shapes of what one run of [push] adds to the trace. *)
Inductive push_events (force : bool) : list Event -> Prop :=
| push_nothing : push_events force []
| push_client opts : push_events force [EvNewClient opts]
| push_packaged opts tmp :
    push_events force [EvNewClient opts; EvMkdir tmp; EvRemoveAll tmp]
| push_uploaded opts tmp path :
    push_events force [EvNewClient opts; EvMkdir tmp; EvUpload path force; EvRemoveAll tmp].

(** The shapes of what one run of [download] adds to the trace. *)
Inductive download_events : list Event -> Prop :=
| download_nothing : download_events []
| download_client opts : download_events [EvNewClient opts]
| download_asked opts filePath : download_events [EvNewClient opts; EvDownload filePath].

Section PushNotions.

Context `{Collaborators}.

(** The descriptor and the error that [push] gets from the locator it
    chooses (lines 176-181). *)
Definition push_locate (p : pushCmd) (w : World) : option helm_Repo * option error :=
  if looks_like_URL (repoName p) then helm_TempRepoFromURL (repoName p)
  else helm_GetRepoByName (repoName p) w.

(** The settings after line 178. *)
Definition push_settings (p : pushCmd) (repo : helm_Repo) : pushCmd :=
  if looks_like_URL (repoName p) then set_repoName p (URL repo) else p.

(** The chart after the override of its version (lines 193-195). *)
Definition push_chart (p : pushCmd) (chart : Chart) : Chart :=
  if negb (String.eqb (chartVersion p) "") then Chart_SetVersion chart (chartVersion p)
  else chart.

(** The world in which [push] packages the chart: the client was made
    and the directory [tmp] created. *)
Definition push_workspace (p : pushCmd) (repo : helm_Repo) (tmp : string) (w : World) : World :=
  log (set_fs (log w (EvNewClient (push_client_options p repo))) (<[tmp := Dir]> (fs w)))
      (EvMkdir tmp).


End PushNotions.

(** Inputs for the examples of the further properties. *)
Module Sample.

(** A world without a user, with an empty file system, in which
    [HELM_REPO_INSECURE] holds a word that is no boolean. *)
Definition bare : World :=
  mkWorld (<["HELM_REPO_INSECURE" := "yes"]> ∅) (inl "user: unknown userid") ∅ "" [].

(** The settings for a forced push of [mychart] to the repository
    [chartmuseum], with a user name given on the command line. *)
Definition forced : pushCmd :=
  mkPushCmd "mychart" "" "chartmuseum" "carol" "" "" "" "" true false "" "" "" false.

Definition registered : helm_Repo := mkRepo "cm://repo.example.com" "bob" "secret".

Definition contexts : list (string * context) :=
  [("a", mkContext "dev" "dev-token"); ("b", mkContext "prod" "prod-token")].

End Sample.


(** * Part 8: the library fragments on examples *)

Example strings_Replace_first :
  strings_Replace "cm://a/cm://b" "cm://" "https://" 1 = "https://a/cm://b".
Proof. reflexivity. Qed.

Example strings_Split_path :
  strings_Split "/a/charts/x.tgz" "/" = [""; "a"; "charts"; "x.tgz"].
Proof. reflexivity. Qed.

Example strings_Split_empty : strings_Split "" "/" = [""].
Proof. reflexivity. Qed.

Example strings_Join_path :
  strings_Join [""; "a"; "charts"; "x.tgz"] "/" = "/a/charts/x.tgz".
Proof. reflexivity. Qed.

Example fmt_d_400 : fmt_d 400 = "400".
Proof. reflexivity. Qed.

Example utf8_roundtrip_euro :
  utf8_DecodeRune (utf8_EncodeRune 8364%N) = (8364%N, 3).
Proof. reflexivity. Qed.

Example utf8_roundtrip_emoji :
  utf8_DecodeRune (utf8_EncodeRune 128512%N) = (128512%N, 4).
Proof. reflexivity. Qed.

Example utf8_overlong_rejected :
  utf8_DecodeRune (String (byte_of 192) (String (byte_of 128) "")) = (RuneError, 1).
Proof. reflexivity. Qed.

Example json_error_envelope :
  json_Unmarshal_er ("{" +:+ quoted "error" +:+ ":" +:+ quoted "version already exists" +:+ "}")
  = ("version already exists", None).
Proof. vm_compute. reflexivity. Qed.

Example json_error_envelope_spaced :
  json_Unmarshal_er (" { " +:+ quoted "code" +:+ ": [1, -2.5e3, true, null, {}] , "
                     +:+ quoted "Error" +:+ " : " +:+ quoted "a\u00e9\n\ud83d\ude00" +:+ " } ")
  = ("a" +:+ utf8_EncodeRune 233%N +:+ String (ascii_of_nat 10) (utf8_EncodeRune 128512%N), None).
Proof. vm_compute. reflexivity. Qed.

Example json_not_json : fst (json_Unmarshal_er "oops") = "" /\ snd (json_Unmarshal_er "oops") <> None.
Proof. vm_compute. split; [reflexivity | discriminate]. Qed.

Example json_wrong_type :
  json_Unmarshal_er ("{" +:+ quoted "error" +:+ ":42}")
  = ("", Some "json: cannot unmarshal number into Go struct field .error of type string").
Proof. vm_compute. reflexivity. Qed.

Example json_trailing_garbage :
  snd (json_Unmarshal_er ("{" +:+ quoted "error" +:+ ":" +:+ quoted "x" +:+ "} x")) <> None.
Proof. vm_compute. discriminate. Qed.

Example path_Join_home : path_Join ["/home/me"; ".cfconfig"] = "/home/me/.cfconfig".
Proof. reflexivity. Qed.

Example path_Join_messy : path_Join ["/home//me/./x/../"; ".cfconfig"] = "/home/me/.cfconfig".
Proof. reflexivity. Qed.

Example path_Clean_up : path_Clean "../../a/.." = "../..".
Proof. reflexivity. Qed.

Example filepath_Base_file : filepath_Base "/tmp/helm-push-1/mychart-0.1.0.tgz" = "mychart-0.1.0.tgz".
Proof. reflexivity. Qed.

Example filepath_Base_slashes : filepath_Base "///" = "/" /\ filepath_Base "a/b//" = "b".
Proof. split; reflexivity. Qed.

Example url_unescape_slash : url_unescape "/a%2Fb%20c" = inr "/a/b c".
Proof. reflexivity. Qed.

Example url_escape_space : url_escape_path "/a/b c?" = "/a/b%20c%3F".
Proof. reflexivity. Qed.

Example random_suffix_42 : random_suffix 42 = "000000042".
Proof. vm_compute. reflexivity. Qed.

(** * Part 9: properties of the library fragments *)

#[local] Arguments String.append !_ _ : simpl nomatch.
#[local] Arguments Ascii.eqb !_ !_ : simpl nomatch.

Section Strings.

Implicit Types (s t u : string) (c : ascii).

Lemma append_nil_r s : s +:+ "" = s.
Proof. induction s as [|a s IH]; simpl; [reflexivity | by rewrite IH]. Qed.

Lemma append_assoc s t u : (s +:+ t) +:+ u = s +:+ (t +:+ u).
Proof. induction s as [|a s IH]; simpl; [reflexivity | by rewrite IH]. Qed.

Lemma length_append s t : String.length (s +:+ t) = String.length s + String.length t.
Proof. induction s as [|a s IH]; simpl; [reflexivity | by rewrite IH]. Qed.

Lemma str_take_app s t : str_take (String.length s) (s +:+ t) = s.
Proof. induction s as [|a s IH]; simpl; [by destruct t | by rewrite IH]. Qed.

Lemma str_drop_app s t : str_drop (String.length s) (s +:+ t) = t.
Proof. induction s as [|a s IH]; simpl; [reflexivity | exact IH]. Qed.

Lemma str_drop_add n m s : str_drop (n + m) s = str_drop m (str_drop n s).
Proof.
  revert s; induction n as [|n IH]; intros s; simpl; [reflexivity |].
  destruct s as [|a s]; [by destruct m | apply IH].
Qed.

Lemma str_take_drop n s : str_take n s +:+ str_drop n s = s.
Proof.
  revert s; induction n as [|n IH]; intros [|a s]; simpl; try reflexivity.
  by rewrite IH.
Qed.

Lemma strings_HasPrefix_app s t : strings_HasPrefix (s +:+ t) s = true.
Proof.
  induction s as [|a s IH]; simpl; [done |].
  by rewrite Ascii.eqb_refl.
Qed.

Lemma strings_HasPrefix_split s t :
  strings_HasPrefix t s = true -> t = s +:+ str_drop (String.length s) t.
Proof.
  revert t; induction s as [|a s IH]; intros [|b t] Hp; simpl in *; try done.
  destruct (Ascii.eqb_spec a b) as [->|]; [| done].
  f_equal. by apply IH.
Qed.

Lemma strings_Index_eq s pat :
  strings_Index s pat =
  if strings_HasPrefix s pat then Some 0
  else match s with
       | "" => None
       | String _ s' => S <$> strings_Index s' pat
       end.
Proof. by destruct s. Qed.

(** The first occurrence found by [strings.Index] is an occurrence. *)
Lemma strings_Index_Some s pat i :
  strings_Index s pat = Some i ->
  s = str_take i s +:+ pat +:+ str_drop (i + String.length pat) s.
Proof.
  revert i; induction s as [|a s IH]; intros i; rewrite strings_Index_eq;
    destruct (strings_HasPrefix _ pat) eqn:Hp.
  - intros [= <-]. by apply strings_HasPrefix_split in Hp.
  - discriminate.
  - intros [= <-]. by apply strings_HasPrefix_split in Hp.
  - destruct (strings_Index s pat) as [j|] eqn:Hj; simpl; [| discriminate].
    intros [= <-]. simpl. f_equal. by apply IH.
Qed.

Lemma strings_Index_char c a s :
  strings_Index (String a s) (String c "") =
  if Ascii.eqb a c then Some 0 else S <$> strings_Index s (String c "").
Proof.
  rewrite strings_Index_eq. simpl.
  rewrite (Ascii.eqb_sym c a). by destruct (Ascii.eqb a c).
Qed.

Lemma strings_Index_char_None c s :
  strings_Index s (String c "") = None <-> free_of c s.
Proof.
  induction s as [|a s IH]; [simpl; tauto |].
  rewrite strings_Index_char. simpl.
  destruct (Ascii.eqb_spec a c) as [->|Hne].
  - split; [discriminate | tauto].
  - destruct (strings_Index s (String c "")); simpl.
    + split; [discriminate |]. intros [_ Hf]. apply IH in Hf. discriminate.
    + split; [| reflexivity]. intros _. split; [exact Hne | by apply IH].
Qed.

End Strings.

Section Splitting.

Implicit Types (s t u : string) (c : ascii).

Lemma split_on_nonempty c s : split_on c s <> [].
Proof.
  destruct s as [|a s]; simpl; [done |].
  destruct (Ascii.eqb a c); [done |]. by destruct (split_on c s).
Qed.

Lemma genSplit_S fuel s sep :
  genSplit (S fuel) s sep =
  match strings_Index s sep with
  | None => [s]
  | Some m => str_take m s :: genSplit fuel (str_drop (m + String.length sep) s) sep
  end.
Proof. reflexivity. Qed.

Lemma genSplit_char_sep c fuel s :
  genSplit (S fuel) (String c s) (String c "") = "" :: genSplit fuel s (String c "").
Proof. rewrite genSplit_S, strings_Index_char, Ascii.eqb_refl. reflexivity. Qed.

Lemma genSplit_char_other c a fuel s :
  a <> c ->
  genSplit (S fuel) (String a s) (String c "") = cons_head a (genSplit (S fuel) s (String c "")).
Proof.
  intros Hne. rewrite !genSplit_S, strings_Index_char.
  destruct (Ascii.eqb_spec a c) as [|_]; [done |].
  by destruct (strings_Index s (String c "")).
Qed.

(** With a fuel of at least the length of [s], [genSplit] finds every
    occurrence of a one-byte separator. *)
Lemma genSplit_split_on c s fuel :
  String.length s <= fuel -> genSplit fuel s (String c "") = split_on c s.
Proof.
  revert fuel; induction s as [|a s IH]; intros fuel Hlen.
  - by destruct fuel.
  - destruct fuel as [|fuel]; simpl in Hlen; [lia |].
    simpl split_on. destruct (Ascii.eqb_spec a c) as [->|Hne].
    + rewrite genSplit_char_sep, IH by lia. reflexivity.
    + rewrite genSplit_char_other, IH by (done || lia). reflexivity.
Qed.

Lemma strings_Split_char c s : strings_Split s (String c "") = split_on c s.
Proof. unfold strings_Split. simpl. by apply genSplit_split_on. Qed.

Lemma split_on_free c s : free_of c s -> split_on c s = [s].
Proof.
  induction s as [|a s IH]; simpl; [done |]. intros [Hne Hf].
  destruct (Ascii.eqb_spec a c) as [|_]; [done |]. by rewrite IH.
Qed.

Lemma split_on_app c s t :
  free_of c t -> split_on c (s +:+ String c t) = (split_on c s ++ [t])%list.
Proof.
  intros Hf. induction s as [|a s IH]; simpl.
  - by rewrite Ascii.eqb_refl, split_on_free.
  - destruct (Ascii.eqb a c); rewrite IH; [done |].
    pose proof (split_on_nonempty c s). by destruct (split_on c s).
Qed.

Lemma split_on_length_free c s : length (split_on c s) <= 1 -> free_of c s.
Proof.
  induction s as [|a s IH]; simpl; [done |].
  destruct (Ascii.eqb_spec a c) as [->|Hne]; simpl.
  - pose proof (split_on_nonempty c s). destruct (split_on c s); simpl; [done | lia].
  - intros Hlen. split; [done |]. apply IH.
    destruct (split_on c s); simpl in *; lia.
Qed.

Lemma strings_Join_cons e rest sep :
  rest <> [] -> strings_Join (e :: rest) sep = e +:+ sep +:+ strings_Join rest sep.
Proof. by destruct rest. Qed.

Lemma strings_Join_snoc l e sep :
  l <> [] -> strings_Join (l ++ [e])%list sep = strings_Join l sep +:+ sep +:+ e.
Proof.
  induction l as [|x l IH]; [done |]. intros _.
  destruct l as [|y l]; [done |].
  change ((x :: y :: l) ++ [e])%list with (x :: ((y :: l) ++ [e]))%list.
  rewrite !strings_Join_cons by done. rewrite IH by done.
  by rewrite !append_assoc.
Qed.

(** Joining the parts gives the string back. *)
Lemma strings_Join_split_on c s : strings_Join (split_on c s) (String c "") = s.
Proof.
  induction s as [|a s IH]; simpl; [done |].
  pose proof (split_on_nonempty c s) as Hne.
  destruct (Ascii.eqb_spec a c) as [->|_].
  - rewrite strings_Join_cons by done. by rewrite IH.
  - destruct (split_on c s) as [|x rest] eqn:Hs; [done |]. simpl cons_head.
    destruct rest as [|y rest]; simpl in *; by rewrite <- IH.
Qed.

(** A list of at least two elements ends in two elements. *)
Lemma two_last {A} (l : list A) :
  2 <= length l -> exists pre x y, l = (pre ++ [x; y])%list.
Proof.
  induction l as [|a l IH]; simpl; [lia |]. intros Hlen.
  destruct l as [|b l]; simpl in *; [lia |].
  destruct l as [|c l].
  - by exists [], a, b.
  - destruct IH as (pre & x & y & ->); [simpl; lia |].
    by exists (a :: pre), x, y.
Qed.

End Splitting.

Section Decomposition.

Implicit Types (s t u : string) (c : ascii).

(** [download_split] on a path whose last two parts are [x] and [y]. *)
Lemma download_split_two_last path pre x y :
  split_on "/" path = (pre ++ [x; y])%list ->
  download_split path =
  Some (if String.eqb x "charts" then (strings_Join pre "/", "charts/" +:+ y)
        else (strings_Join (pre ++ [x])%list "/", y)).
Proof.
  intros Hparts. unfold download_split.
  change "/" with (String "/" "") at 1. rewrite strings_Split_char, Hparts.
  rewrite length_app. simpl length.
  replace (length pre + 2 <=? 1)%nat with false by (symmetry; apply Nat.leb_gt; lia).
  replace (length pre + 2 - 1) with (length pre + 1) by lia.
  replace (length pre + 2 - 2) with (length pre + 0) by lia.
  rewrite !app_nth2_plus. simpl nth.
  destruct (String.eqb x "charts").
  - replace (length pre + 2 - 2) with (length pre) by lia.
    by rewrite take_app_length.
  - replace (length pre + 2 - 1) with (length (pre ++ [x])%list) by (rewrite length_app; simpl; lia).
    change (pre ++ [x; y])%list with (pre ++ ([x] ++ [y]))%list.
    by rewrite (assoc (++)%list), take_app_length.
Qed.

Lemma free_of_app c s t : free_of c (s +:+ t) <-> free_of c s /\ free_of c t.
Proof. induction s as [|a s IH]; simpl; tauto. Qed.

(** A path [base/x/y] with no slash in [x] and [y]. *)
Lemma download_split_path base x y :
  free_of "/" x -> free_of "/" y ->
  download_split (base +:+ "/" +:+ x +:+ "/" +:+ y) =
  Some (if String.eqb x "charts" then (base, "charts/" +:+ y)
        else (base +:+ "/" +:+ x, y)).
Proof.
  intros Hx Hy.
  assert (Hparts : split_on "/" (base +:+ "/" +:+ x +:+ "/" +:+ y)
                   = (split_on "/" base ++ [x; y])%list).
  { replace (base +:+ "/" +:+ x +:+ "/" +:+ y)
      with ((base +:+ String "/" x) +:+ String "/" y)
      by (by rewrite append_assoc).
    rewrite !split_on_app by done.
    by rewrite <- (assoc (++)%list). }
  rewrite (download_split_two_last _ _ _ _ Hparts).
  pose proof (split_on_nonempty "/" base).
  destruct (String.eqb x "charts").
  - change "/" with (String "/" "") at 1. by rewrite strings_Join_split_on.
  - rewrite strings_Join_snoc by done.
    change "/" with (String "/" "") at 1. by rewrite strings_Join_split_on.
Qed.

(** The decomposition of a path with a slash loses nothing, unless the
    path is [charts/y] without a leading slash. *)
Lemma download_split_roundtrip path :
  strings_Index path "/" <> None ->
  (forall y, path <> "charts/" +:+ y) ->
  exists base file,
    download_split path = Some (base, file) /\ base +:+ "/" +:+ file = path.
Proof.
  intros Hslash Hrel.
  assert (Hlen : 2 <= length (split_on "/" path)).
  { destruct (le_lt_dec 2 (length (split_on "/" path))) as [|Hlt]; [done |].
    exfalso. apply Hslash. apply (strings_Index_char_None "/").
    apply split_on_length_free. lia. }
  destruct (two_last _ Hlen) as (pre & x & y & Hparts).
  rewrite (download_split_two_last _ _ _ _ Hparts).
  pose proof (strings_Join_split_on "/" path) as Hjoin. rewrite Hparts in Hjoin.
  destruct (String.eqb_spec x "charts") as [->|Hx].
  - eexists _, _. split; [done |].
    destruct pre as [|p0 pre].
    + exfalso. apply (Hrel y). by rewrite <- Hjoin.
    + change ((p0 :: pre) ++ ["charts"; y])%list
        with ((p0 :: pre) ++ (["charts"] ++ [y]))%list in Hjoin.
      rewrite (assoc (++)%list) in Hjoin.
      rewrite !strings_Join_snoc in Hjoin by (done || by destruct pre).
      rewrite <- Hjoin. by rewrite !append_assoc.
  - eexists _, _. split; [done |].
    change (pre ++ [x; y])%list with (pre ++ ([x] ++ [y]))%list in Hjoin.
    rewrite (assoc (++)%list) in Hjoin.
    rewrite strings_Join_snoc in Hjoin by by destruct pre. done.
Qed.

End Decomposition.

Section URLs.

Context `{Collaborators}.

Implicit Types (s t : string) (u : url_URL).

Lemma url_unescape_rooted s p :
  url_unescape s = inr p -> rooted_or_empty s -> rooted_or_empty p.
Proof.
  intros Hun [->|Hpre].
  - simpl in Hun. left. congruence.
  - right. destruct s as [|a s]; [done |]. simpl in Hpre.
    destruct (Ascii.eqb_spec "/" a) as [<-|]; simpl in Hpre; [| done].
    simpl in Hun. destruct (url_unescape s); [done |]. by simplify_eq.
Qed.

Lemma url_setPath_spec u s u' :
  url_setPath u s = inr u' ->
  Scheme u' = Scheme u /\ (rooted_or_empty s -> rooted_or_empty (Path u')).
Proof.
  unfold url_setPath. destruct (url_unescape s) as [|p] eqn:Hun; [done |].
  intros [= <-]. simpl. split; [done |]. by apply url_unescape_rooted.
Qed.


Lemma str_drop_Index_rooted s i :
  strings_Index s "/" = Some i -> strings_HasPrefix (str_drop i s) "/" = true.
Proof.
  revert i; induction s as [|a s IH]; intros i; [done |].
  change "/" with (String "/" "") at 1. rewrite strings_Index_char.
  destruct (Ascii.eqb_spec a "/") as [->|].
  - by intros [= <-].
  - destruct (strings_Index s (String "/" "")) as [j|] eqn:Hj; [| done].
    intros [= <-]. simpl. by apply IH.
Qed.

Lemma url_split_keep_rooted s :
  rooted_or_empty (snd (url_split s "/" false)).
Proof.
  unfold url_split. destruct (strings_Index s "/") as [i|] eqn:Hi; simpl.
  - right. by apply str_drop_Index_rooted.
  - by left.
Qed.

(** A URL with a scheme has an empty path or one that starts with a
    slash. *)
Lemma url_parse_path rawurl u :
  url_parse rawurl = inr u -> Scheme u <> "" -> rooted_or_empty (Path u).
Proof.
  unfold url_parse. intros Hparse Hscheme.
  destruct (stringContainsCTLByte rawurl); [done |].
  destruct (String.eqb rawurl "*"); [by simplify_eq |].
  destruct (getscheme rawurl) as [|[scheme rest0]]; [done |].
  destruct (if strings_HasSuffix rest0 "?" && (strings_Count rest0 "?" =? 1)%nat
            then _ else _) as [[rest forceQuery] rawQuery].
  destruct (strings_HasPrefix rest "/") eqn:Hrest;
    destruct (String.eqb (strings_ToLower scheme) "") eqn:Hs;
    cbn [negb andb orb] in Hparse.
  - (* no scheme, rooted *)
    destruct (negb (strings_HasPrefix rest "///") && strings_HasPrefix rest "//").
    + pose proof (url_split_keep_rooted (str_drop 2 rest)) as Hk.
      destruct (url_split (str_drop 2 rest) "/" false) as [authority rest'].
      destruct (url_parseAuthority authority) as [|[user host]]; [done |].
      apply url_setPath_spec in Hparse as [_ Hp]. by apply Hp.
    + apply url_setPath_spec in Hparse as [_ Hp]. apply Hp. by right.
  - (* a scheme, rooted *)
    destruct (strings_HasPrefix rest "//").
    + pose proof (url_split_keep_rooted (str_drop 2 rest)) as Hk.
      destruct (url_split (str_drop 2 rest) "/" false) as [authority rest'].
      destruct (url_parseAuthority authority) as [|[user host]]; [done |].
      apply url_setPath_spec in Hparse as [_ Hp]. by apply Hp.
    + apply url_setPath_spec in Hparse as [_ Hp]. apply Hp. by right.
  - (* no scheme, not rooted: the scheme of the result is empty *)
    exfalso. apply Hscheme. apply String.eqb_eq in Hs.
    destruct (match strings_Index rest ":", strings_Index rest "/" with
              | Some colon, Some slash => (colon <? slash)%nat
              | Some _, None => true
              | None, _ => false
              end); [done |].
    destruct (negb (strings_HasPrefix rest "///") && strings_HasPrefix rest "//").
    + destruct (url_split (str_drop 2 rest) "/" false) as [authority rest'].
      destruct (url_parseAuthority authority) as [|[user host]]; [done |].
      apply url_setPath_spec in Hparse as [-> _]. done.
    + apply url_setPath_spec in Hparse as [-> _]. done.
  - (* a scheme, not rooted: opaque *)
    left. by simplify_eq.
Qed.

Lemma url_Parse_path rawurl u :
  url_Parse rawurl = inr u -> Scheme u <> "" -> rooted_or_empty (Path u).
Proof.
  unfold url_Parse.
  destruct (url_split rawurl "#" true) as [u0 frag].
  destruct (url_parse u0) as [|url] eqn:Hparse; [done |].
  destruct (String.eqb frag "").
  - intros [= <-]. by apply url_parse_path with u0.
  - destruct (url_unescape frag); [done |]. intros [= <-]. simpl.
    by apply url_parse_path with u0.
Qed.


(** Cutting the fragment off a [cm://] URL leaves a [cm://] URL. *)
Lemma url_split_fragment_cm t :
  exists t0, fst (url_split ("cm://" +:+ t) "#" true) = "cm://" +:+ t0.
Proof.
  unfold url_split. change "#" with (String "#" "") at 1.
  change ("cm://" +:+ t) with (String "c" (String "m" (String ":" (String "/" (String "/" t))))).
  rewrite !strings_Index_char. simpl.
  destruct (strings_Index t (String "#" "")) as [i|]; simpl; by eexists.
Qed.

Lemma url_parse_scheme_cm t url :
  url_parse ("cm://" +:+ t) = inr url -> Scheme url = "cm".
Proof.
  unfold url_parse.
  destruct (stringContainsCTLByte _); [done |].
  change (String.eqb ("cm://" +:+ t) "*") with false. cbv iota.
  change (getscheme ("cm://" +:+ t)) with (@inr error _ ("cm", "//" +:+ t)). cbv iota beta.
  change (strings_ToLower "cm") with "cm".
  destruct (if strings_HasSuffix ("//" +:+ t) "?" && _ then _ else _)
    as [[rest forceQuery] rawQuery].
  change (String.eqb "cm" "") with false. cbn [negb andb orb].
  destruct (strings_HasPrefix rest "/"); cbn [negb andb orb]; [| by intros [= <-]].
  destruct (strings_HasPrefix rest "//").
  - destruct (url_split (str_drop 2 rest) "/" false) as [authority rest'].
    destruct (url_parseAuthority authority) as [|[user host]]; [done |].
    intros Hset. by apply url_setPath_spec in Hset as [-> _].
  - intros Hset. by apply url_setPath_spec in Hset as [-> _].
Qed.

(** The scheme of a parsed [cm://] URL is [cm]. *)
Lemma url_Parse_scheme_cm fileURL u :
  strings_HasPrefix fileURL "cm://" = true -> url_Parse fileURL = inr u -> Scheme u = "cm".
Proof.
  intros Hpre. apply strings_HasPrefix_split in Hpre. rewrite Hpre.
  generalize (str_drop (String.length "cm://") fileURL) as t. clear Hpre. intros t.
  unfold url_Parse.
  destruct (url_split_fragment_cm t) as [t0 Hfst].
  destruct (url_split ("cm://" +:+ t) "#" true) as [u0 frag]. cbn [fst] in Hfst. subst u0.
  destruct (url_parse ("cm://" +:+ t0)) as [|url] eqn:Hparse; [done |].
  apply url_parse_scheme_cm in Hparse.
  destruct (String.eqb frag ""); [by intros [= <-] |].
  destruct (url_unescape frag); [done |]. by intros [= <-].
Qed.

(** The path of a parsed [cm://] URL is empty or starts with a slash. *)
Lemma url_Parse_cm_path fileURL u :
  strings_HasPrefix fileURL "cm://" = true -> url_Parse fileURL = inr u ->
  rooted_or_empty (Path u).
Proof.
  intros Hpre Hparse. apply (url_Parse_path fileURL); [done |].
  by rewrite (url_Parse_scheme_cm fileURL u).
Qed.

End URLs.
Section Decoding.

Implicit Types (s r : string) (fuel : nat).

Lemma str_drop_length n s : String.length (str_drop n s) <= String.length s.
Proof.
  revert s; induction n as [|n IH]; intros [|a s]; simpl; try lia.
  specialize (IH s). lia.
Qed.

Lemma skip_ws_length s : String.length (skip_ws s) <= String.length s.
Proof. induction s as [|a s IH]; simpl; [lia |]. destruct (is_space a); simpl; lia. Qed.

Lemma skip_digits_length s : String.length (skip_digits s) <= String.length s.
Proof. induction s as [|a s IH]; simpl; [lia |]. destruct (is_digit a); simpl; lia. Qed.

Lemma scan_digits1_length s r : scan_digits1 s = Some r -> String.length r <= String.length s.
Proof.
  destruct s as [|a s]; simpl; [done |].
  destruct (is_digit a); [| done]. intros [= <-]. pose proof (skip_digits_length s). lia.
Qed.

Lemma scan_number_length s r : scan_number s = Some r -> String.length r <= String.length s.
Proof.
  unfold scan_number.
  repeat (case_match; simplify_eq; try done);
    repeat match goal with
      | Hd : scan_digits1 _ = Some _ |- _ => apply scan_digits1_length in Hd; simpl in Hd
      | |- context [skip_digits ?x] => pose proof (skip_digits_length x); generalize dependent (skip_digits x); intros
      | Hs : context [skip_digits ?x] |- _ => pose proof (skip_digits_length x); generalize dependent (skip_digits x); intros
      end;
    intros; simplify_eq;
    repeat match goal with
      | Hd : scan_digits1 _ = Some _ |- _ => apply scan_digits1_length in Hd
      end;
    simpl in *; lia.
Qed.

Lemma scan_string_length s raw r :
  scan_string s = Some (raw, r) -> String.length r < String.length s.
Proof.
  remember (String.length s) as n eqn:Hn.
  assert (Hle : String.length s <= n) by lia. clear Hn.
  revert s raw r Hle. induction n as [|n IH]; intros [|c s] raw r Hle; simpl in *; try done; try lia.
  repeat (case_match; simplify_eq; try done); intros; simplify_eq; simpl in *; try lia;
    match goal with
    | Hs : scan_string _ = Some _ |- _ => apply IH in Hs; simpl in *; lia
    end.
Qed.

Ltac lengths IHv IHm IHe :=
  repeat match goal with
    | Hs : skip_ws ?a = _ |- _ =>
        let Hl := fresh "Hl" in
        pose proof (skip_ws_length a) as Hl; rewrite Hs in Hl; clear Hs
    | Hs : scan_string _ = Some _ |- _ => apply scan_string_length in Hs
    | Hs : scan_number _ = Some _ |- _ => apply scan_number_length in Hs
    | Hs : parse_value _ _ = Parsed _ _ |- _ => apply IHv in Hs
    | Hs : parse_members _ _ = Parsed _ _ |- _ => apply IHm in Hs
    | Hs : parse_elements _ _ = Parsed _ _ |- _ => apply IHe in Hs
    | |- context [str_drop ?n ?a] =>
        pose proof (str_drop_length n a); generalize dependent (str_drop n a); intros
    end;
  cbn [String.length] in *.

(** What a parser leaves is no longer than what it was given. *)
Lemma parse_rest_length fuel :
  (forall s v r, parse_value fuel s = Parsed v r -> String.length r <= String.length s)
  /\ (forall s ms r, parse_members fuel s = Parsed ms r -> String.length r <= String.length s)
  /\ (forall s es r, parse_elements fuel s = Parsed es r -> String.length r <= String.length s).
Proof.
  induction fuel as [|fuel (IHv & IHm & IHe)]; [by repeat split |].
  repeat split; intros s x r; cbn [parse_value parse_members parse_elements];
    repeat (case_match; try done);
    lengths IHv IHm IHe; intros; simplify_eq; lia.
Qed.

(** The fuel that [parse_json] gives is never used up: a fuel of twice the
    length of the input and one more is enough for a value and for the
    members of an object, and one more again for the elements of an
    array, whose first element is parsed at the input of the array. *)
Lemma parse_fuel fuel :
  (forall s, 2 * String.length s + 1 <= fuel -> parse_value fuel s <> OutOfFuel)
  /\ (forall s, 2 * String.length s + 1 <= fuel -> parse_members fuel s <> OutOfFuel)
  /\ (forall s, 2 * String.length s + 2 <= fuel -> parse_elements fuel s <> OutOfFuel).
Proof.
  induction fuel as [|fuel (IHv & IHm & IHe)]; [repeat split; intros; lia |].
  pose proof (parse_rest_length fuel) as (Lv & Lm & Le).
  repeat split; intros s Hfuel; cbn [parse_value parse_members parse_elements];
    repeat (case_match; simplify_eq; try done);
    match goal with
    | Hs : parse_value _ _ = OutOfFuel |- _ => apply IHv in Hs; [done |]
    | Hs : parse_members _ _ = OutOfFuel |- _ => apply IHm in Hs; [done |]
    | Hs : parse_elements _ _ = OutOfFuel |- _ => apply IHe in Hs; [done |]
    end;
    lengths Lv Lm Le; lia.
Qed.

Lemma parse_json_fuel s : parse_json s <> OutOfFuel.
Proof.
  unfold parse_json.
  destruct (parse_value (json_fuel s) s) as [v rest| |] eqn:Hp.
  - by destruct (skip_ws rest).
  - done.
  - apply (proj1 (parse_fuel (json_fuel s))) in Hp; [done | unfold json_fuel; lia].
Qed.

Lemma utf8_DecodeRune_size a s : 1 <= snd (utf8_DecodeRune (String a s)).
Proof. unfold utf8_DecodeRune. repeat (case_match; simpl; try lia). Qed.

Lemma str_drop_cons_length n a s :
  1 <= n -> String.length (str_drop n (String a s)) <= String.length s.
Proof. destruct n as [|n]; [lia |]. intros _. exact (str_drop_length n s). Qed.

(** [unquote] never stops for lack of fuel: above the length of the
    input the fuel makes no difference. *)
Lemma unquote_loop_fuel n :
  forall s fuel1 fuel2,
    String.length s <= n -> String.length s <= fuel1 -> String.length s <= fuel2 ->
    unquote_loop fuel1 s = unquote_loop fuel2 s.
Proof.
  induction n as [|n IH]; intros [|c s] [|fuel1] [|fuel2] Hn H1 H2;
    cbn [String.length] in *; try reflexivity; try lia.
  assert (Hgo : forall t, String.length t <= String.length s ->
                  unquote_loop fuel1 t = unquote_loop fuel2 t).
  { intros t Ht. apply IH; lia. }
  cbn [unquote_loop].
  pose proof (utf8_DecodeRune_size c s) as Hsize.
  destruct (utf8_DecodeRune (String c s)) as [rr size]. cbn [snd] in Hsize.
  repeat (case_match; try done); f_equal; apply Hgo;
    repeat match goal with
      | |- context [str_drop ?k (String ?a ?t)] =>
          let Hd := fresh "Hd" in
          assert (Hd : String.length (str_drop k (String a t)) <= String.length t)
            by (apply str_drop_cons_length; lia);
          generalize dependent (str_drop k (String a t)); intros
      | |- context [str_drop ?k ?t] =>
          pose proof (str_drop_length k t); generalize dependent (str_drop k t); intros
      end;
    cbn [String.length] in *; lia.
Qed.

Lemma unquote_fuel s fuel :
  String.length s <= fuel -> unquote_loop fuel s = unquote s.
Proof. intros Hfuel. by apply (unquote_loop_fuel (String.length s)). Qed.

End Decoding.


(** * Part 10: the configuration resolver *)

Section ConfigResolver.

Context `{Collaborators}.

Implicit Types (p : pushCmd) (w : World).

Lemma string_step_frame {A} (f : pushCmd -> A) v get set p :
  (forall q x, f (set q x) = f q) -> f (string_step v get set p) = f p.
Proof.
  intros Hf. unfold string_step. destruct v; [| done].
  by destruct (String.eqb (get p) "").
Qed.

Lemma bool_step_frame {A} (f : pushCmd -> A) v set p :
  (forall q x, f (set q x) = f q) -> f (bool_step v set p) = f p.
Proof. intros Hf. unfold bool_step. by destruct v. Qed.

Lemma string_step_own v get set p :
  (forall q x, get (set q x) = x) ->
  get (string_step v get set p) = merge_string (get p) v.
Proof.
  intros Hg. unfold string_step, merge_string. destruct v; [| done].
  by destruct (String.eqb (get p) "").
Qed.

Lemma bool_step_own (get : pushCmd -> bool) v set p :
  (forall q x, get (set q x) = x) ->
  get (bool_step v set p)
  = match v with Some x => fst (strconv_ParseBool x) | None => get p end.
Proof. intros Hg. unfold bool_step. by destruct v. Qed.

(** Peel the steps that leave the field [f] alone. *)
Ltac peel f :=
  repeat first
    [ rewrite (string_step_frame f) by (intros; reflexivity)
    | rewrite (bool_step_frame f) by (intros; reflexivity) ].

Ltac field_of f :=
  unfold env_fields; cbv zeta; peel f;
  first [ rewrite string_step_own by (intros; reflexivity)
        | rewrite (bool_step_own f) by (intros; reflexivity)
        | idtac ];
  peel f; reflexivity.

Lemma env_fields_username e p :
  username (env_fields e p) = merge_string (username p) (e !! "HELM_REPO_USERNAME").
Proof. field_of username. Qed.

Lemma env_fields_password e p :
  password (env_fields e p) = merge_string (password p) (e !! "HELM_REPO_PASSWORD").
Proof. field_of password. Qed.

Lemma env_fields_accessToken e p :
  accessToken (env_fields e p)
  = merge_string (accessToken p) (e !! "HELM_REPO_ACCESS_TOKEN").
Proof. field_of accessToken. Qed.

Lemma env_fields_authHeader e p :
  authHeader (env_fields e p) = merge_string (authHeader p) (e !! "HELM_REPO_AUTH_HEADER").
Proof. field_of authHeader. Qed.

Lemma env_fields_contextPath e p :
  contextPath (env_fields e p)
  = merge_string (contextPath p) (e !! "HELM_REPO_CONTEXT_PATH").
Proof. field_of contextPath. Qed.

Lemma env_fields_caFile e p :
  caFile (env_fields e p) = merge_string (caFile p) (e !! "HELM_REPO_CA_FILE").
Proof. field_of caFile. Qed.

Lemma env_fields_certFile e p :
  certFile (env_fields e p) = merge_string (certFile p) (e !! "HELM_REPO_CERT_FILE").
Proof. field_of certFile. Qed.

Lemma env_fields_keyFile e p :
  keyFile (env_fields e p) = merge_string (keyFile p) (e !! "HELM_REPO_KEY_FILE").
Proof. field_of keyFile. Qed.

Lemma env_fields_useHTTP e p :
  useHTTP (env_fields e p)
  = match e !! "HELM_REPO_USE_HTTP" with
    | Some x => fst (strconv_ParseBool x)
    | None => useHTTP p
    end.
Proof. field_of useHTTP. Qed.

Lemma env_fields_InsecureSkipVerify e p :
  InsecureSkipVerify (env_fields e p)
  = match e !! "HELM_REPO_INSECURE" with
    | Some x => fst (strconv_ParseBool x)
    | None => InsecureSkipVerify p
    end.
Proof. field_of InsecureSkipVerify. Qed.

Lemma env_fields_chartName e p : chartName (env_fields e p) = chartName p.
Proof. field_of chartName. Qed.

Lemma env_fields_repoName e p : repoName (env_fields e p) = repoName p.
Proof. field_of repoName. Qed.

(** The environment step neither fails nor touches the world. *)
Lemma fields_from_env_run p w : fields_from_env p w = (Val (env_fields (env w) p), w).
Proof. reflexivity. Qed.


Lemma merge_string_rule flag var : string_rule flag var (merge_string flag var).
Proof.
  unfold string_rule, merge_string. repeat split.
  - intros Hne. destruct var; [| done].
    by destruct (String.eqb_spec flag "").
  - intros -> v ->. done.
  - by intros -> ->.
Qed.

Lemma merge_token_rule flag var result :
  (merge_string flag var <> "" -> result = merge_string flag var) ->
  token_rule flag var result.
Proof.
  unfold token_rule, merge_string. intros Hres. split.
  - intros Hne. destruct var.
    + destruct (String.eqb_spec flag ""); [done | by apply Hres].
    + by apply Hres.
  - intros -> v -> Hv. simpl in Hres. by apply Hres.
Qed.

(** The loop stops at the first entry whose name is the current one. *)
Lemma range_Contexts_spec entries current p :
  (exists key ctx, In (key, ctx) entries /\ Name ctx = current
                   /\ range_Contexts entries current p = set_accessToken p (Token ctx))
  \/ ((forall key ctx, In (key, ctx) entries -> Name ctx <> current)
      /\ range_Contexts entries current p = p).
Proof.
  induction entries as [|[key ctx] rest IH]; simpl.
  - right. split; [by intros ? ? [] | done].
  - destruct (String.eqb_spec (Name ctx) current) as [Heq|Hne].
    + left. exists key, ctx. auto.
    + destruct IH as [(k & c & Hin & Hname & Hr)|[Hnone Hr]].
      * left. exists k, c. auto.
      * right. split; [| done]. intros k c [[= <- <-]|Hin]; [done | by eapply Hnone].
Qed.

(** What the lookup in the credentials file does, case by case. *)
Lemma setAccessTokenFromConfigFile_run q w :
  exists q' w',
    setAccessTokenFromConfigFile q w = (Val q', w')
    /\ (forall e, home w = inl e -> q' = q)
    /\ (forall homeDir, home w = inr homeDir ->
          (fs w !! path_Join [homeDir; ".cfconfig"] = None -> q' = q)
          /\ (forall n, fs w !! path_Join [homeDir; ".cfconfig"] = Some n ->
                 (forall content, n <> File content) -> q' = q)
          /\ (forall content,
                 fs w !! path_Join [homeDir; ".cfconfig"] = Some (File content) ->
                 (forall e, yaml_Unmarshal content = inl e -> q' = q)
                 /\ (forall c, yaml_Unmarshal content = inr c ->
                       q' = range_Contexts (Contexts c) (CurrentContext c) q))).
Proof.
  unfold setAccessTokenFromConfigFile, bind, user_Current, os_Stat, ioutil_ReadFile, ret.
  destruct (home w) as [e|homeDir] eqn:Hhome.
  { eexists _, _. split; [reflexivity |]. naive_solver. }
  cbn [fs log].
  destruct (fs w !! path_Join [homeDir; ".cfconfig"]) as [n|] eqn:Hfs;
    cbn [os_IsNotExist fs log]; rewrite ?Hfs.
  2:{ eexists _, _. split; [reflexivity |]. naive_solver. }
  destruct n as [|content| |]; cbn [os_IsNotExist fs log]; rewrite ?Hfs;
    try (eexists _, _; split; [reflexivity | naive_solver]).
  destruct (yaml_Unmarshal content) as [e|c] eqn:Hyaml;
    eexists _, _; (split; [reflexivity |]);
    repeat (split || intro); simplify_eq; try done;
    match goal with
    | Hn : forall content, _ <> File content |- _ => by destruct (Hn content)
    | Hy : yaml_Unmarshal _ = _ |- _ => rewrite Hyaml in Hy; by simplify_eq
    end.
Qed.

(** The lookup changes the access token at most. *)
Lemma setAccessTokenFromConfigFile_frame q w q' w' :
  setAccessTokenFromConfigFile q w = (Val q', w') ->
  q' = q \/ exists tok, q' = set_accessToken q tok.
Proof.
  intros Hrun.
  destruct (setAccessTokenFromConfigFile_run q w)
    as (q1 & w1 & Hrun1 & Hhome & Hfile).
  rewrite Hrun in Hrun1. injection Hrun1 as <- <-.
  destruct (home w) as [e|homeDir] eqn:Hh; [left; by eapply Hhome |].
  destruct (Hfile homeDir eq_refl) as (Hmissing & Hunreadable & Hread).
  destruct (fs w !! path_Join [homeDir; ".cfconfig"]) as [n|] eqn:Hfs; [| left; by apply Hmissing].
  destruct n as [|content| |];
    try (left; eapply Hunreadable; [reflexivity | by intros ?]).
  destruct (Hread content eq_refl) as [Hbad Hgood].
  destruct (yaml_Unmarshal content) as [e|c] eqn:Hyaml; [left; by eapply Hbad |].
  rewrite (Hgood c eq_refl).
  destruct (range_Contexts_spec (Contexts c) (CurrentContext c) q)
    as [(k & ctx & _ & _ & ->)|[_ ->]]; [right; by eexists | by left].
Qed.


Lemma setFieldsFromEnv_run p w :
  setFieldsFromEnv p w
  = if String.eqb (accessToken (env_fields (env w) p)) ""
    then setAccessTokenFromConfigFile (env_fields (env w) p) w
    else (Val (env_fields (env w) p), w).
Proof.
  unfold setFieldsFromEnv, bind. rewrite fields_from_env_run.
  by destruct (String.eqb (accessToken (env_fields (env w) p)) "").
Qed.

(** C1: a string setting keeps the value of its flag when that value is
    not empty and takes the environment variable only when it is empty; a
    boolean setting takes the parsed environment variable whenever the
    variable is present, whatever the flag. (For the access token, an
    empty value after the environment is left to the credentials
    file.) *)
Theorem setFieldsFromEnv_precedence p w :
  exists p' w',
    setFieldsFromEnv p w = (Val p', w')
    /\ string_rule (username p) (env w !! "HELM_REPO_USERNAME") (username p')
    /\ string_rule (password p) (env w !! "HELM_REPO_PASSWORD") (password p')
    /\ token_rule (accessToken p) (env w !! "HELM_REPO_ACCESS_TOKEN") (accessToken p')
    /\ string_rule (authHeader p) (env w !! "HELM_REPO_AUTH_HEADER") (authHeader p')
    /\ string_rule (contextPath p) (env w !! "HELM_REPO_CONTEXT_PATH") (contextPath p')
    /\ string_rule (caFile p) (env w !! "HELM_REPO_CA_FILE") (caFile p')
    /\ string_rule (certFile p) (env w !! "HELM_REPO_CERT_FILE") (certFile p')
    /\ string_rule (keyFile p) (env w !! "HELM_REPO_KEY_FILE") (keyFile p')
    /\ bool_rule (useHTTP p) (env w !! "HELM_REPO_USE_HTTP") (useHTTP p')
    /\ bool_rule (InsecureSkipVerify p) (env w !! "HELM_REPO_INSECURE")
         (InsecureSkipVerify p').
Proof.
  rewrite setFieldsFromEnv_run.
  set (p1 := env_fields (env w) p).
  assert (Hframe : exists p' w',
    (if String.eqb (accessToken p1) "" then setAccessTokenFromConfigFile p1 w
     else (Val p1, w)) = (Val p', w')
    /\ (p' = p1 \/ (accessToken p1 = "" /\ exists tok, p' = set_accessToken p1 tok))).
  { destruct (String.eqb_spec (accessToken p1) "") as [Hempty|Hset].
    - destruct (setAccessTokenFromConfigFile_run p1 w) as (q' & w' & Hrun & _).
      exists q', w'. split; [done |].
      destruct (setAccessTokenFromConfigFile_frame _ _ _ _ Hrun) as [->|Htok]; auto.
    - exists p1, w. auto. }
  destruct Hframe as (p' & w' & -> & Hp').
  exists p', w'. split; [done |].
  assert (Hother : forall {A} (f : pushCmd -> A),
             (forall q x, f (set_accessToken q x) = f q) -> f p' = f p1).
  { intros A f Hf. destruct Hp' as [->|[_ [tok ->]]]; [done | apply Hf]. }
  rewrite (Hother _ username), (Hother _ password), (Hother _ authHeader),
    (Hother _ contextPath), (Hother _ caFile), (Hother _ certFile), (Hother _ keyFile),
    (Hother _ useHTTP), (Hother _ InsecureSkipVerify) by (intros; reflexivity).
  subst p1.
  rewrite env_fields_username, env_fields_password, env_fields_authHeader,
    env_fields_contextPath, env_fields_caFile, env_fields_certFile, env_fields_keyFile,
    env_fields_useHTTP, env_fields_InsecureSkipVerify.
  repeat match goal with |- _ /\ _ => split end;
    try apply merge_string_rule;
    try (split; [by intros v -> | by intros ->]).
  apply merge_token_rule. intros Hne.
  destruct Hp' as [->|[Hempty _]]; [apply env_fields_accessToken |].
  by rewrite env_fields_accessToken in Hempty.
Qed.

(** C7: the credentials file is consulted only when the flag and the
    environment left the access token empty; the lookup never fails; a
    user without a home directory, a missing file, an unreadable file and
    malformed contents each leave the settings as they are; and a token
    comes only from an entry whose name is the current context. *)
Theorem credentials_file_lookup p w :
  let p1 := env_fields (env w) p in
  (accessToken p1 <> "" -> setFieldsFromEnv p w = (Val p1, w))
  /\ exists p' w',
       setAccessTokenFromConfigFile p1 w = (Val p', w')
       /\ (accessToken p1 = "" -> setFieldsFromEnv p w = (Val p', w'))
       /\ (forall e, home w = inl e -> p' = p1)
       /\ (forall homeDir, home w = inr homeDir ->
             (fs w !! path_Join [homeDir; ".cfconfig"] = None -> p' = p1)
             /\ (forall n, fs w !! path_Join [homeDir; ".cfconfig"] = Some n ->
                    (forall content, n <> File content) -> p' = p1)
             /\ (forall content,
                    fs w !! path_Join [homeDir; ".cfconfig"] = Some (File content) ->
                    (forall e, yaml_Unmarshal content = inl e -> p' = p1)
                    /\ (forall c, yaml_Unmarshal content = inr c ->
                          (exists key ctx,
                              In (key, ctx) (Contexts c)
                              /\ Name ctx = CurrentContext c
                              /\ p' = set_accessToken p1 (Token ctx))
                          \/ ((forall key ctx, In (key, ctx) (Contexts c) ->
                                  Name ctx <> CurrentContext c)
                              /\ p' = p1)))).
Proof.
  intros p1. split.
  - intros Hset. rewrite setFieldsFromEnv_run. fold p1.
    by destruct (String.eqb_spec (accessToken p1) "").
  - destruct (setAccessTokenFromConfigFile_run p1 w) as (p' & w' & Hrun & Hhome & Hfile).
    exists p', w'. split; [done |]. split; [| split; [done |]].
    + intros Hempty. rewrite setFieldsFromEnv_run. fold p1. by rewrite Hempty.
    + intros homeDir Hh. destruct (Hfile homeDir Hh) as (Hmissing & Hunreadable & Hread).
      split; [done |]. split; [done |].
      intros content Hc. destruct (Hread content Hc) as [Hbad Hgood].
      split; [done |]. intros c Hyaml. rewrite (Hgood c Hyaml).
      apply range_Contexts_spec.
Qed.

End ConfigResolver.

(** * Part 11: the interpretation of responses *)

Section Responses.

Implicit Types (resp : Response) (w : World).

Lemma getChartmuseumError_rule code body :
  envelope_rule code body (getChartmuseumError body code).
Proof.
  unfold envelope_rule, getChartmuseumError.
  destruct (json_Unmarshal_er body) as [m err]. simpl. split.
  - intros m' [= -> ->] Hm. by destruct (String.eqb_spec m' "").
  - intros [Herr| ->]; destruct err; done.
Qed.

(** C2, as amended: 201 is the only success of an upload and prints
    [Done.]; with any other status the body is read, a failure of the read
    is returned as it is, and otherwise the error is the one the envelope
    rule builds; 400 with the body [body_version_exists] gives the
    message [400: version already exists]. *)
Theorem handlePushResponse_outcomes resp w :
  (StatusCode resp = 201%Z ->
     handlePushResponse resp w = (Val None, print w ("Done." +:+ newline)))
  /\ (StatusCode resp <> 201%Z ->
       (forall e, BodyErr resp = Some e -> handlePushResponse resp w = (Val (Some e), w))
       /\ (BodyErr resp = None ->
            exists msg,
              handlePushResponse resp w = (Val (Some msg), w)
              /\ envelope_rule (StatusCode resp) (Body resp) msg))
  /\ handlePushResponse (mkResponse 400 body_version_exists None) w
     = (Val (Some "400: version already exists"), w).
Proof.
  unfold handlePushResponse, ioutil_ReadAll.
  split; [| split; [intros Hne; split |]].
  - intros ->. reflexivity.
  - intros e He. destruct (Z.eqb_spec (StatusCode resp) 201); [done |]. simpl. by rewrite He.
  - intros He. destruct (Z.eqb_spec (StatusCode resp) 201); [done |]. simpl. rewrite He.
    eexists. split; [reflexivity | apply getChartmuseumError_rule].
  - reflexivity.
Qed.

(** C2 as it was stated fails when the body cannot be read to its end: the
    error is then the one of the read, not one the envelope rule
    builds. *)
Lemma handlePushResponse_read_failure :
  fst (handlePushResponse (response_cut_short 500) (mkWorld ∅ (inl "") ∅ "" []))
  = Val (Some "unexpected EOF")
  /\ ~ envelope_rule 500 "{" "unexpected EOF".
Proof.
  split; [reflexivity |]. intros [_ Hfallback].
  assert (Hm : "unexpected EOF" = fmt_d 500 +:+ ": could not properly parse response JSON: " +:+ "{").
  { apply Hfallback. left. vm_compute. discriminate. }
  vm_compute in Hm. discriminate.
Qed.

(** C3, as amended: when the body of a download response is read to its
    end, 200 is success and the body is printed as it is, with nothing
    added, and any other status gives the error the envelope rule builds
    (404 with the body [oops] gives the fallback message); a failure of
    the read is returned as it is, whatever the status, and nothing is
    printed. *)
Theorem handleDownloadResponse_outcomes resp w :
  (BodyErr resp = None ->
     (StatusCode resp = 200%Z ->
        handleDownloadResponse resp w = (Val None, print w (Body resp)))
     /\ (StatusCode resp <> 200%Z ->
          exists msg,
            handleDownloadResponse resp w = (Val (Some msg), w)
            /\ envelope_rule (StatusCode resp) (Body resp) msg))
  /\ (forall e, BodyErr resp = Some e -> handleDownloadResponse resp w = (Val (Some e), w))
  /\ handleDownloadResponse (mkResponse 404 "oops" None) w
     = (Val (Some "404: could not properly parse response JSON: oops"), w)
  /\ stdout (snd (handleDownloadResponse (mkResponse 200 "abc" None) w)) = stdout w +:+ "abc".
Proof.
  unfold handleDownloadResponse, ioutil_ReadAll.
  split; [intros Hread; rewrite Hread; split | split; [| split]].
  - intros ->. reflexivity.
  - intros Hne. destruct (Z.eqb_spec (StatusCode resp) 200); [done |]. simpl.
    eexists. split; [reflexivity | apply getChartmuseumError_rule].
  - intros e ->. reflexivity.
  - reflexivity.
  - reflexivity.
Qed.

(** C3 as it was stated fails when the body cannot be read to its end:
    status 200 is then not a success. *)
Lemma handleDownloadResponse_read_failure :
  handleDownloadResponse (response_cut_short 200) (mkWorld ∅ (inl "") ∅ "" [])
  = (Val (Some "unexpected EOF"), mkWorld ∅ (inl "") ∅ "" []).
Proof. reflexivity. Qed.

End Responses.

(** * Part 12: the entry point and the push *)

Section Push.

Context `{Collaborators}.

Implicit Types (p : pushCmd) (w : World).

(** C6: four arguments of which the last starts with [cm://] select the
    download, two arguments select the push, and every other list of
    arguments gives the usage error and leaves the world as it is: no
    environment is read, no file is opened and no network call is made. *)
Theorem RunE_dispatch p (args : list string) :
  (length args = 4 -> strings_HasPrefix (nth 3 args "") "cm://" = true ->
     RunE p args = bind (setFieldsFromEnv p) (fun p' => download p' (nth 3 args "")))
  /\ (length args = 2 ->
       RunE p args
       = bind (setFieldsFromEnv (set_repoName (set_chartName p (nth 0 args "")) (nth 1 args "")))
              push)
  /\ (length args <> 2 ->
       ~ (length args = 4 /\ strings_HasPrefix (nth 3 args "") "cm://" = true) ->
       forall w, RunE p args w = (Val (Some usage_error), w)
                 /\ filter is_network (trace (snd (RunE p args w))) = filter is_network (trace w)).
Proof.
  unfold RunE. split; [| split].
  - intros -> ->. reflexivity.
  - intros ->. reflexivity.
  - intros Hnot2 Hnot4 w.
    destruct (Nat.eqb_spec (length args) 4) as [H4|H4];
      destruct (strings_HasPrefix (nth 3 args "") "cm://") eqn:Hcm; simpl;
      destruct (Nat.eqb_spec (length args) 2); try done.
    by destruct Hnot4.
Qed.

(** C9: for a repository identifier that looks like a URL, [repo.URL] is
    read before the error is looked at. A nil descriptor makes the push
    panic whatever the error is, so the error of the locator is returned
    only when a descriptor comes with it. *)
Theorem push_reads_descriptor_before_error p w :
  looks_like_URL (repoName p) = true ->
  (forall err, helm_TempRepoFromURL (repoName p) = (None, err) ->
     exists msg, push p w = (Panic msg, w))
  /\ (forall r e, helm_TempRepoFromURL (repoName p) = (Some r, Some e) ->
       push p w = (Val (Some e), w))
  /\ (forall repo e w', helm_TempRepoFromURL (repoName p) = (repo, Some e) ->
       push p w = (Val (Some e), w') -> repo <> None).
Proof.
  intros Hurl. unfold push, bind. rewrite Hurl. repeat split.
  - intros err ->. simpl. by eexists.
  - intros r e ->. reflexivity.
  - intros repo e w' -> Hrun ->. simpl in Hrun. discriminate.
Qed.


Lemma path_Clean_nonempty s : path_Clean s <> "".
Proof.
  unfold path_Clean.
  destruct (String.eqb_spec
              (if strings_HasPrefix s "/"
               then "/" +:+ strings_Join (clean_elements (strings_HasPrefix s "/")
                                            (strings_Split s "/") []) "/"
               else strings_Join (clean_elements (strings_HasPrefix s "/")
                                    (strings_Split s "/") []) "/") ""); done.
Qed.

Lemma path_Join_nonempty dir a name : path_Join [dir; String a name] <> "".
Proof.
  unfold path_Join. simpl.
  destruct (negb (String.eqb dir "")); apply path_Clean_nonempty.
Qed.

(** [ioutil.TempDir] either fails and changes nothing, or makes one new
    directory with a name that is not empty. *)
Lemma TempDir_loop_run retries attempt dir a pre w r w' :
  TempDir_loop retries attempt dir (String a pre) w = (r, w') ->
  (exists e, r = inl e /\ w' = w)
  \/ (exists name, r = inr name /\ name <> ""
                   /\ w' = log (set_fs w (<[name := Dir]> (fs w))) (EvMkdir name)).
Proof.
  revert attempt; induction retries as [|retries IH]; intros attempt; simpl;
    destruct (fs w !! _) eqn:Hfs.
  - intros [= <- <-]. left. by eexists.
  - destruct (os_Mkdir_error _ w); intros [= <- <-]; [left; by eexists |].
    right. eexists. split; [done |]. split; [apply path_Join_nonempty | done].
  - apply IH.
  - destruct (os_Mkdir_error _ w); intros [= <- <-]; [left; by eexists |].
    right. eexists. split; [done |]. split; [apply path_Join_nonempty | done].
Qed.

Lemma ioutil_TempDir_run a pre w r w' :
  ioutil_TempDir "" (String a pre) w = (r, w') ->
  (exists e, r = Val (inl e) /\ w' = w)
  \/ (exists name, r = Val (inr name) /\ name <> ""
                   /\ w' = log (set_fs w (<[name := Dir]> (fs w))) (EvMkdir name)).
Proof.
  unfold ioutil_TempDir.
  destruct (TempDir_loop _ _ _ _ w) as [r0 w0] eqn:Hloop. intros [= <- <-].
  apply TempDir_loop_run in Hloop as [(e & -> & ->)|(name & -> & Hne & ->)];
    [left | right]; by eexists.
Qed.


Lemma os_RemoveAll_trace tmp w :
  tmp <> "" -> trace (snd (os_RemoveAll tmp w)) = (trace w ++ [EvRemoveAll tmp])%list.
Proof. intros Hne. unfold os_RemoveAll. by destruct (String.eqb_spec tmp ""). Qed.

(** The upload adds at most an upload to the trace. *)
Lemma push_upload_trace p (chart : Chart) (client : Client) tmp w r w' :
  push_upload p chart client tmp w = (r, w') ->
  exists evs, trace w' = (trace w ++ evs)%list
              /\ forall name, ~ In (EvMkdir name) evs.
Proof.
  unfold push_upload, bind_err, bind, call_CreateChartPackage, call_UploadChartPackage,
    handlePushResponse, fmt_Println, fmt_Print, ioutil_ReadAll, ret.
  destruct (helm_CreateChartPackage chart tmp (fs w)) as [[e|path] m]; simpl.
  { intros [= <- <-]. exists []. split; [by rewrite app_nil_r | by intros ? []]. }
  destruct (Client_UploadChartPackage client path (forceUpload p) _) as [e|resp]; simpl.
  { intros [= <- <-]. eexists [_]. split; [done |]. by intros ? [|[]]. }
  destruct (negb (StatusCode resp =? 201)%Z); [destruct (BodyErr resp) |];
    intros [= <- <-]; eexists [_]; (split; [done | by intros ? [|[]]]).
Qed.

(** The options of the client that [push] makes hold the URL of
    [push_url], for a repository that was located and a chart that was
    found. *)
Lemma push_client_url p w (repo : helm_Repo) (chart : Chart) :
  (if looks_like_URL (repoName p) then helm_TempRepoFromURL (repoName p)
   else helm_GetRepoByName (repoName p) w) = (Some repo, None) ->
  helm_GetChartByName (chartName p) w = inr chart ->
  exists opts evs,
    trace (snd (push p w)) = (trace w ++ EvNewClient opts :: evs)%list
    /\ cm_URL opts = push_url p repo.
Proof.
  intros Hloc Hchart.
  unfold push, bind_err, bind, deref, call_GetRepoByName, call_GetChartByName,
    call_NewClient, ret, panic.
  set (p' := if looks_like_URL (repoName p) then set_repoName p (URL repo) else p).
  assert (Hp' : chartName p' = chartName p /\ push_url p' repo = push_url p repo).
  { subst p'. by destruct (looks_like_URL (repoName p)). }
  destruct Hp' as [Hname Hurl].
  set (located := if looks_like_URL (repoName p) then _ else _).
  assert (Hlocated : located w = (Val (Some repo, None, p'), w)).
  { subst located p'. destruct (looks_like_URL (repoName p)); by rewrite Hloc. }
  rewrite Hlocated, Hname, Hchart. cbv beta iota.
  eexists _. rewrite Hurl.
  destruct (cm_NewClient _ w) as [e|client]; cbv beta iota.
  { exists []. split; reflexivity. }
  destruct (ioutil_TempDir "" "helm-push-" _) as [rt wt] eqn:Htmp.
  apply ioutil_TempDir_run in Htmp as [(e & -> & ->)|(tmp & -> & Hne & ->)]; cbv beta iota.
  { exists []. split; reflexivity. }
  unfold defer.
  destruct (push_upload _ _ _ tmp _) as [ru wu] eqn:Hup.
  apply push_upload_trace in Hup as (evs & Htrace & _).
  exists (EvMkdir tmp :: evs ++ [EvRemoveAll tmp])%list. split; [| reflexivity].
  cbn [snd]. rewrite os_RemoveAll_trace, Htrace by done. simpl.
  rewrite <- !(assoc (++)%list). reflexivity.
Qed.

(** C5: when the stored URL contains [cm://], the URL given to the client
    is the stored one with its first [cm://] replaced by [http://] under
    [useHTTP] and by [https://] otherwise; what precedes and what follows
    the marker is unchanged. This is the URL in the options of the client
    that [push] makes. *)
Theorem push_url_rewrites_marker p (repo : helm_Repo) (i : nat) :
  strings_Index (URL repo) "cm://" = Some i ->
  URL repo = str_take i (URL repo) +:+ "cm://" +:+ str_drop (i + 5) (URL repo)
  /\ push_url p repo
     = str_take i (URL repo) +:+ (if useHTTP p then "http://" else "https://")
       +:+ str_drop (i + 5) (URL repo)
  /\ (forall w (chart : Chart),
        (if looks_like_URL (repoName p) then helm_TempRepoFromURL (repoName p)
         else helm_GetRepoByName (repoName p) w) = (Some repo, None) ->
        helm_GetChartByName (chartName p) w = inr chart ->
        exists opts evs,
          trace (snd (push p w)) = (trace w ++ EvNewClient opts :: evs)%list
          /\ cm_URL opts
             = str_take i (URL repo) +:+ (if useHTTP p then "http://" else "https://")
               +:+ str_drop (i + 5) (URL repo)).
Proof.
  intros Hi.
  assert (Hurl : push_url p repo
                 = str_take i (URL repo) +:+ (if useHTTP p then "http://" else "https://")
                   +:+ str_drop (i + 5) (URL repo)).
  { unfold push_url, strings_Replace. destruct (useHTTP p); simpl; by rewrite Hi. }
  split; [by apply strings_Index_Some in Hi |]. split; [exact Hurl |].
  intros w chart Hloc Hchart.
  destruct (push_client_url p w repo chart Hloc Hchart) as (opts & evs & Htrace & Hopts).
  exists opts, evs. split; [exact Htrace | by rewrite Hopts].
Qed.


End Push.

(** * Part 13: the download *)

Section Download.

Context `{Collaborators}.

Implicit Types (p : pushCmd) (u : url_URL).

(** C4: when the path of the URL ends in [/charts/name], the file asked
    of the server is [charts/name] and the path of the endpoint is the
    path without these two segments; when it ends in [/dir/name] with
    [dir] other than [charts], the file is [name] and only this last
    segment is removed. *)
Theorem download_derives_file_path p (fileURL : string) u (base name : string) :
  url_Parse fileURL = inr u ->
  strings_Index name "/" = None ->
  (Path u = base +:+ "/charts/" +:+ name ->
     download p fileURL = download_fetch p (set_Path u base) ("charts/" +:+ name))
  /\ (forall dir,
        strings_Index dir "/" = None -> dir <> "charts" ->
        Path u = base +:+ "/" +:+ dir +:+ "/" +:+ name ->
        download p fileURL = download_fetch p (set_Path u (base +:+ "/" +:+ dir)) name).
Proof.
  intros Hparse Hname. apply (strings_Index_char_None "/") in Hname.
  unfold download. rewrite Hparse. split.
  - intros ->.
    change (base +:+ "/charts/" +:+ name) with (base +:+ "/" +:+ "charts" +:+ "/" +:+ name).
    by rewrite download_split_path.
  - intros dir Hdir Hne ->. apply (strings_Index_char_None "/") in Hdir.
    rewrite download_split_path by done.
    by destruct (String.eqb_spec dir "charts").
Qed.

(** C10: for a [cm://] URL whose path has a slash, the endpoint path, a
    slash and the file path make up the path again, with and without a
    [charts] segment. *)
Theorem download_decomposition_roundtrip p (fileURL : string) u :
  strings_HasPrefix fileURL "cm://" = true ->
  url_Parse fileURL = inr u ->
  strings_Index (Path u) "/" <> None ->
  exists base file,
    download_split (Path u) = Some (base, file)
    /\ download p fileURL = download_fetch p (set_Path u base) file
    /\ base +:+ "/" +:+ file = Path u.
Proof.
  intros Hcm Hparse Hslash.
  destruct (url_Parse_cm_path fileURL u Hcm Hparse) as [Hempty|Hrooted].
  { rewrite Hempty in Hslash. done. }
  destruct (download_split_roundtrip (Path u) Hslash) as (base & file & Hsplit & Hjoin).
  { intros y Hy. rewrite Hy in Hrooted. discriminate. }
  exists base, file. split; [done |]. split; [| done].
  unfold download. by rewrite Hparse, Hsplit.
Qed.

End Download.

(** * Part 14: the theorems at concrete inputs *)

Section Witnesses.

#[local] Existing Instance Demo.collaborators.

Lemma setFieldsFromEnv_precedence_witness :
  exists p',
    fst (setFieldsFromEnv (set_username Demo.flags "x") Demo.world) = Val p'
    /\ username p' = "x" /\ password p' = "" /\ useHTTP p' = true.
Proof.
  destruct (setFieldsFromEnv_precedence (set_username Demo.flags "x") Demo.world)
    as (p' & w' & Hrun & Hu & Hpw & _ & _ & _ & _ & _ & _ & Hhttp & _).
  exists p'. rewrite Hrun. split; [reflexivity |]. split; [| split].
  - apply (proj1 Hu). discriminate.
  - apply (proj2 (proj2 Hpw)); [reflexivity | vm_compute; reflexivity].
  - apply (proj1 Hhttp "true"). vm_compute. reflexivity.
Defined.

Lemma credentials_file_lookup_witness :
  fst (setFieldsFromEnv Demo.flags Demo.world)
  = Val (set_accessToken (env_fields (env Demo.world) Demo.flags) "prod-token").
Proof.
  destruct (credentials_file_lookup Demo.flags Demo.world)
    as [_ (p' & w' & _ & Hset & _ & Hfile)].
  rewrite Hset by (vm_compute; reflexivity). simpl. f_equal.
  destruct (Hfile "/home/alice" eq_refl) as (_ & _ & Hread).
  destruct (Hread "token-of prod" ltac:(vm_compute; reflexivity)) as [_ Hgood].
  destruct (Hgood _ eq_refl) as [(key & ctx & Hin & Hname & ->)|[Hnone _]].
  - destruct Hin as [[= <- <-]|[[= <- <-]|[]]]; [discriminate Hname | reflexivity].
  - destruct (Hnone "b" (mkContext "prod" "prod-token")); [right; left |]; reflexivity.
Defined.

Lemma handlePushResponse_outcomes_witness :
  handlePushResponse (mkResponse 201 "" None) Demo.world
  = (Val None, print Demo.world ("Done." +:+ newline))
  /\ exists msg,
       handlePushResponse (mkResponse 500 "oops" None) Demo.world = (Val (Some msg), Demo.world)
       /\ msg = "500: could not properly parse response JSON: oops".
Proof.
  split.
  - apply (proj1 (handlePushResponse_outcomes (mkResponse 201 "" None) Demo.world)).
    reflexivity.
  - destruct (proj2 (proj1 (proj2
      (handlePushResponse_outcomes (mkResponse 500 "oops" None) Demo.world))
      ltac:(discriminate)) eq_refl) as (msg & Hrun & _ & Hfallback).
    exists msg. split; [exact Hrun |]. apply Hfallback. left. vm_compute. discriminate.
Defined.

Lemma handleDownloadResponse_outcomes_witness :
  handleDownloadResponse (mkResponse 200 "abc" None) Demo.world
  = (Val None, print Demo.world "abc").
Proof.
  apply (proj1 (proj1 (handleDownloadResponse_outcomes (mkResponse 200 "abc" None) Demo.world)
                 eq_refl)).
  reflexivity.
Defined.

Lemma RunE_dispatch_witness :
  RunE Demo.flags ["one"] Demo.world = (Val (Some usage_error), Demo.world)
  /\ RunE Demo.flags ["one"; "two"; "three"] Demo.world = (Val (Some usage_error), Demo.world)
  /\ RunE Demo.flags ["one"; "two"; "three"; "four"] Demo.world
     = (Val (Some usage_error), Demo.world)
  /\ RunE Demo.flags ["one"; "two"; "three"; "four"; "five"] Demo.world
     = (Val (Some usage_error), Demo.world).
Proof.
  assert (Hgo : forall args, length args <> 2 -> length args <> 4 ->
                  RunE Demo.flags args Demo.world = (Val (Some usage_error), Demo.world)).
  { intros args Hnot2 Hnot4.
    apply (proj2 (proj2 (RunE_dispatch Demo.flags args)) Hnot2).
    intros [Hlen Hcm]. by apply Hnot4. }
  refine (conj (Hgo _ _ _) (conj (Hgo _ _ _) (conj _ (Hgo _ _ _)))); simpl; try discriminate.
  apply (proj2 (proj2 (RunE_dispatch Demo.flags _))); simpl; [discriminate |].
  intros [Hlen Hcm]. discriminate.
Defined.

Lemma push_reads_descriptor_before_error_witness :
  exists msg,
    push (set_repoName Demo.flags "http://%zz") Demo.world = (Panic msg, Demo.world).
Proof.
  apply (proj1 (push_reads_descriptor_before_error
                  (set_repoName Demo.flags "http://%zz") Demo.world eq_refl)
           (Some "invalid URL escape")).
  reflexivity.
Defined.

Lemma push_url_rewrites_marker_witness :
  push_url Demo.flags (mkRepo "cm://repo.example.com" "" "") = "https://repo.example.com".
Proof.
  apply (proj1 (proj2 (push_url_rewrites_marker Demo.flags
                         (mkRepo "cm://repo.example.com" "" "") 0 eq_refl))).
Defined.


Lemma download_derives_file_path_witness :
  download Demo.flags "cm://repo.example.com/a/charts/x.tgz"
  = download_fetch Demo.flags (set_Path Demo.parsed "/a") "charts/x.tgz".
Proof.
  apply (proj1 (download_derives_file_path (H := Demo.collaborators) Demo.flags
                  "cm://repo.example.com/a/charts/x.tgz" Demo.parsed "/a" "x.tgz"
                  ltac:(vm_compute; reflexivity) eq_refl)).
  reflexivity.
Defined.

Lemma download_decomposition_roundtrip_witness :
  exists base file,
    download_split "/a/charts/x.tgz" = Some (base, file)
    /\ download Demo.flags "cm://repo.example.com/a/charts/x.tgz"
       = download_fetch Demo.flags (set_Path Demo.parsed base) file
    /\ base +:+ "/" +:+ file = "/a/charts/x.tgz".
Proof.
  apply (download_decomposition_roundtrip (H := Demo.collaborators) Demo.flags
           "cm://repo.example.com/a/charts/x.tgz" Demo.parsed
           eq_refl ltac:(vm_compute; reflexivity)).
  discriminate.
Defined.

End Witnesses.
(** * Part 15: further properties of the configuration resolver *)

Section ResolverEffects.

Context `{Collaborators}.

Implicit Types (p : pushCmd) (w : World).

Lemma pushCmd_ext p q :
  chartName p = chartName q -> chartVersion p = chartVersion q ->
  repoName p = repoName q -> username p = username q -> password p = password q ->
  accessToken p = accessToken q -> authHeader p = authHeader q ->
  contextPath p = contextPath q -> forceUpload p = forceUpload q ->
  useHTTP p = useHTTP q -> caFile p = caFile q -> certFile p = certFile q ->
  keyFile p = keyFile q -> InsecureSkipVerify p = InsecureSkipVerify q ->
  p = q.
Proof. destruct p, q; simpl; intros; by subst. Qed.

(** A field that no step of lines 107-138 assigns. *)
Ltac untouched f :=
  unfold env_fields; cbv zeta;
  repeat first
    [ rewrite (string_step_frame f) by (intros; reflexivity)
    | rewrite (bool_step_frame f) by (intros; reflexivity) ];
  reflexivity.

Lemma env_fields_chartVersion e p : chartVersion (env_fields e p) = chartVersion p.
Proof. untouched chartVersion. Qed.

Lemma env_fields_forceUpload e p : forceUpload (env_fields e p) = forceUpload p.
Proof. untouched forceUpload. Qed.

Lemma merge_string_twice flag var :
  merge_string (merge_string flag var) var = merge_string flag var.
Proof.
  unfold merge_string. destruct var as [v|]; [| done].
  destruct (String.eqb_spec flag "") as [->|Hne].
  - by destruct (String.eqb v "").
  - by destruct (String.eqb_spec flag "").
Qed.

(** The lookup in the credentials file, with the world it leaves. *)
Lemma setAccessTokenFromConfigFile_world q w :
  exists q',
    setAccessTokenFromConfigFile q w = (Val q', with_events w (lookup_events w))
    /\ (q' = q \/ exists tok, q' = set_accessToken q tok).
Proof.
  unfold setAccessTokenFromConfigFile, bind, user_Current, os_Stat, ioutil_ReadFile, ret,
    with_events, lookup_events, log.
  destruct (home w) as [e|homeDir] eqn:Hhome; cbn [fs trace env home stdout].
  { eexists. split; [reflexivity | by left]. }
  destruct (fs w !! path_Join [homeDir; ".cfconfig"]) as [n|] eqn:Hfs;
    cbn [os_IsNotExist fs trace env home stdout]; rewrite ?Hfs, <- ?app_assoc;
    cbn [app].
  2:{ eexists. split; [reflexivity | by left]. }
  destruct n as [|content| |];
    cbn [os_IsNotExist fs trace env home stdout]; rewrite ?Hfs, <- ?app_assoc; cbn [app];
    try (eexists; split; [reflexivity | by left]).
  destruct (yaml_Unmarshal content) as [e|c] eqn:Hyaml.
  { eexists; split; [reflexivity | by left]. }
  eexists; split; [reflexivity |].
  destruct (range_Contexts_spec (Contexts c) (CurrentContext c) q)
    as [(k & ctx & _ & _ & ->)|[_ ->]]; [right; by eexists | by left].
Qed.

(** [setFieldsFromEnv], with the world it leaves. *)
Lemma setFieldsFromEnv_world p w :
  exists p' evs,
    setFieldsFromEnv p w = (Val p', with_events w evs)
    /\ (p' = env_fields (env w) p
        \/ (accessToken (env_fields (env w) p) = ""
            /\ exists tok, p' = set_accessToken (env_fields (env w) p) tok))
    /\ (evs = [] /\ accessToken (env_fields (env w) p) <> ""
        \/ evs = lookup_events w /\ accessToken (env_fields (env w) p) = "").
Proof.
  rewrite setFieldsFromEnv_run.
  destruct (String.eqb_spec (accessToken (env_fields (env w) p)) "") as [Hempty|Hset].
  - destruct (setAccessTokenFromConfigFile_world (env_fields (env w) p) w)
      as (q' & Hrun & Hq').
    exists q', (lookup_events w). split; [done |]. split; [| by right].
    destruct Hq' as [->|Htok]; [by left | by right].
  - exists (env_fields (env w) p), []. split.
    + unfold with_events. rewrite app_nil_r. by destruct w.
    + split; [by left | by left].
Qed.

(** X1: the resolver leaves the name and the version of the chart, the
    repository and the force flag as the command line gave them. *)
Theorem setFieldsFromEnv_keeps_chart_settings p w :
  exists p' w',
    setFieldsFromEnv p w = (Val p', w')
    /\ chartName p' = chartName p /\ chartVersion p' = chartVersion p
    /\ repoName p' = repoName p /\ forceUpload p' = forceUpload p.
Proof.
  destruct (setFieldsFromEnv_world p w) as (p' & evs & Hrun & Hp' & _).
  exists p', (with_events w evs). split; [done |].
  assert (Hother : forall {A} (f : pushCmd -> A),
             (forall q x, f (set_accessToken q x) = f q) ->
             f p' = f (env_fields (env w) p)).
  { intros A f Hf. destruct Hp' as [->|[_ [tok ->]]]; [done | apply Hf]. }
  rewrite (Hother _ chartName), (Hother _ chartVersion), (Hother _ repoName),
    (Hother _ forceUpload) by (intros; reflexivity).
  by rewrite env_fields_chartName, env_fields_chartVersion, env_fields_repoName,
    env_fields_forceUpload.
Qed.


(** X3: a value of [HELM_REPO_USE_HTTP] or [HELM_REPO_INSECURE] that
    [strconv.ParseBool] rejects turns the setting off, whatever the flag
    was: the error of the parse is dropped and its [false] is kept. *)
Theorem setFieldsFromEnv_rejected_boolean p w :
  exists p' w',
    setFieldsFromEnv p w = (Val p', w')
    /\ (forall v, env w !! "HELM_REPO_USE_HTTP" = Some v ->
          snd (strconv_ParseBool v) <> None -> useHTTP p' = false)
    /\ (forall v, env w !! "HELM_REPO_INSECURE" = Some v ->
          snd (strconv_ParseBool v) <> None -> InsecureSkipVerify p' = false).
Proof.
  destruct (setFieldsFromEnv_world p w) as (p' & evs & Hrun & Hp' & _).
  exists p', (with_events w evs). split; [done |].
  assert (Hother : forall {A} (f : pushCmd -> A),
             (forall q x, f (set_accessToken q x) = f q) ->
             f p' = f (env_fields (env w) p)).
  { intros A f Hf. destruct Hp' as [->|[_ [tok ->]]]; [done | apply Hf]. }
  assert (Hparse : forall v, snd (strconv_ParseBool v) <> None ->
                     fst (strconv_ParseBool v) = false).
  { intros v. unfold strconv_ParseBool.
    destruct (existsb (String.eqb v) _); [done |].
    by destruct (existsb (String.eqb v) _). }
  rewrite (Hother _ useHTTP), (Hother _ InsecureSkipVerify) by (intros; reflexivity).
  rewrite env_fields_useHTTP, env_fields_InsecureSkipVerify.
  split; intros v -> Hv; by apply Hparse.
Qed.

(** X4: consulting the environment a second time changes nothing. *)
Theorem fields_from_env_idempotent p w :
  bind (fields_from_env p) fields_from_env w = fields_from_env p w.
Proof.
  unfold bind. rewrite !fields_from_env_run. f_equal. f_equal.
  apply pushCmd_ext;
    rewrite ?env_fields_chartName, ?env_fields_chartVersion, ?env_fields_repoName,
      ?env_fields_forceUpload, ?env_fields_username, ?env_fields_password,
      ?env_fields_accessToken, ?env_fields_authHeader, ?env_fields_contextPath,
      ?env_fields_caFile, ?env_fields_certFile, ?env_fields_keyFile,
      ?env_fields_useHTTP, ?env_fields_InsecureSkipVerify,
      ?merge_string_twice;
    try reflexivity.
  - by destruct (env w !! "HELM_REPO_USE_HTTP").
  - by destruct (env w !! "HELM_REPO_INSECURE").
Qed.

(** X5: the order in which the entries of the credentials file are
    visited makes no difference when the entries named like the current
    context hold the same token, as they do when names are unique. *)
Theorem range_Contexts_order entries entries' current p :
  Permutation entries entries' ->
  tokens_agree entries current ->
  range_Contexts entries current p = range_Contexts entries' current p.
Proof.
  intros Hperm Hagree.
  destruct (range_Contexts_spec entries current p)
    as [(k & c & Hin & Hname & ->)|[Hnone ->]];
    destruct (range_Contexts_spec entries' current p)
      as [(k' & c' & Hin' & Hname' & ->)|[Hnone' ->]]; try done.
  - f_equal. apply (Hagree k c k' c'); try done.
    by apply (Permutation_in _ (Permutation_sym Hperm)).
  - destruct (Hnone' k c); [by apply (Permutation_in _ Hperm) | done].
  - destruct (Hnone k' c'); [by apply (Permutation_in _ (Permutation_sym Hperm)) | done].
Qed.

End ResolverEffects.

(** * Part 16: further properties of the interpretation of responses *)

Section Envelope.

Implicit Types (m b s : string) (code : Z).

Lemma plain_message_cons c m :
  plain_message (String c m) = true ->
  (nat_of_ascii c <? 32)%nat = false /\ (nat_of_ascii c <? 128)%nat = true
  /\ Ascii.eqb c dquote = false /\ Ascii.eqb c backslash = false
  /\ plain_message m = true.
Proof.
  cbn [plain_message]. rewrite !andb_true_iff, !negb_true_iff.
  intros ((((Hlo & Hhi) & Hq) & Hb) & Hm).
  repeat split; try done. apply Nat.ltb_ge. by apply Nat.leb_le.
Qed.

(** The scanner reads a plain message up to the closing quote. *)
Lemma scan_string_plain m rest :
  plain_message m = true -> scan_string (m +:+ String dquote rest) = Some (m, rest).
Proof.
  induction m as [|c m IH]; [reflexivity |].
  intros (Hlo & _ & Hq & Hb & Hm)%plain_message_cons.
  cbn [String.append scan_string]. rewrite Hq, Hb, Hlo, (IH Hm). reflexivity.
Qed.

(** A plain message has no escape to resolve. *)
Lemma unquote_plain m : plain_message m = true -> unquote m = Some m.
Proof.
  unfold unquote. induction m as [|c m IH]; [reflexivity |].
  intros (Hlo & Hhi & Hq & Hb & Hm)%plain_message_cons.
  cbn [String.length unquote_loop]. rewrite Hb, Hq, Hlo, Hhi. cbn [orb].
  by rewrite (IH Hm).
Qed.

Lemma skip_ws_keep c s : is_space c = false -> skip_ws (String c s) = String c s.
Proof. intros Hc. cbn [skip_ws]. by rewrite Hc. Qed.

(** A string literal with a plain message, as a value. *)
Lemma parse_value_plain_string fuel m rest :
  plain_message m = true ->
  parse_value (S fuel) (String dquote (m +:+ String dquote rest)) = Parsed (JString m) rest.
Proof.
  intros Hm. cbn [parse_value]. rewrite skip_ws_keep by reflexivity.
  change (Ascii.eqb dquote "{") with false. change (Ascii.eqb dquote "[") with false.
  change (Ascii.eqb dquote dquote) with true. cbv iota.
  by rewrite scan_string_plain, unquote_plain.
Qed.

Lemma error_body_eq m :
  error_body m
  = String "{" (String dquote ("error" +:+ String dquote
                  (String ":" (String dquote (m +:+ String dquote "}"))))).
Proof. unfold error_body, quoted. simpl. by rewrite append_assoc. Qed.

Lemma parse_members_error_body fuel m :
  plain_message m = true -> 1 <= fuel ->
  parse_members (S fuel)
    (String dquote ("error" +:+ String dquote
       (String ":" (String dquote (m +:+ String dquote "}")))))
  = Parsed [("error", JString m)] "".
Proof.
  intros Hm Hfuel. cbn [parse_members]. rewrite skip_ws_keep by reflexivity.
  change (Ascii.eqb dquote dquote) with true. cbv iota.
  rewrite scan_string_plain, unquote_plain by reflexivity.
  rewrite skip_ws_keep by reflexivity.
  change (Ascii.eqb ":" ":") with true. cbv iota.
  destruct fuel as [|fuel]; [lia |].
  rewrite parse_value_plain_string by done.
  reflexivity.
Qed.

Lemma parse_value_error_body m fuel :
  plain_message m = true -> 3 <= fuel ->
  parse_value fuel (error_body m) = Parsed (JObject [("error", JString m)]) "".
Proof.
  intros Hm Hfuel. rewrite error_body_eq.
  destruct fuel as [|fuel]; [lia |].
  cbn [parse_value]. rewrite skip_ws_keep by reflexivity.
  change (Ascii.eqb "{" "{") with true. cbv iota.
  rewrite skip_ws_keep by reflexivity.
  change (Ascii.eqb dquote "}") with false. cbv iota.
  destruct fuel as [|fuel]; [lia |].
  rewrite parse_members_error_body by (done || lia).
  reflexivity.
Qed.

Lemma json_Unmarshal_er_error_body m :
  plain_message m = true -> json_Unmarshal_er (error_body m) = (m, None).
Proof.
  intros Hm. unfold json_Unmarshal_er, parse_json.
  rewrite parse_value_error_body; [reflexivity | done |].
  unfold json_fuel. rewrite error_body_eq. cbn [String.length]. lia.
Qed.

(** X6: the envelope of ChartMuseum around a message of printable ASCII
    without quote and backslash, not empty, is read back as that message:
    the error is the status followed by the message. *)
Theorem getChartmuseumError_reads_envelope m code :
  plain_message m = true -> m <> "" ->
  getChartmuseumError (error_body m) code = fmt_d code +:+ ": " +:+ m.
Proof.
  intros Hm Hne. unfold getChartmuseumError.
  rewrite json_Unmarshal_er_error_body by done.
  by destruct (String.eqb_spec m "").
Qed.

(** A text that does not open with a brace is not decoded as an object. *)
Lemma parse_value_not_object fuel b v r :
  (forall rest, skip_ws b <> String "{" rest) ->
  parse_value fuel b = Parsed v r -> forall ms, v <> JObject ms.
Proof.
  intros Hbrace. destruct fuel as [|fuel]; [done |].
  cbn [parse_value].
  destruct (skip_ws b) as [|c rest] eqn:Hb; [done |].
  destruct (Ascii.eqb_spec c "{") as [->|_]; [by destruct (Hbrace rest) |].
  repeat (case_match; try done); by intros [= <- <-].
Qed.

(** X7: a body that does not open with a brace after its white space,
    such as a page of HTML, a plain text or nothing at all, gives the
    fallback message with the body as it is. *)
Theorem getChartmuseumError_not_an_object b code :
  (forall rest, skip_ws b <> String "{" rest) ->
  getChartmuseumError b code = fallback_message code b.
Proof.
  intros Hbrace. unfold getChartmuseumError, fallback_message.
  assert (Hfst : fst (json_Unmarshal_er b) = "").
  { unfold json_Unmarshal_er, parse_json.
    destruct (parse_value (json_fuel b) b) as [v r| |] eqn:Hp; [| done | done].
    pose proof (parse_value_not_object _ _ _ _ Hbrace Hp) as Hv.
    destruct (skip_ws r); [| done].
    destruct v; try done. by destruct (Hv members). }
  destruct (json_Unmarshal_er b) as [m err]. cbn [fst] in Hfst. subst m.
  by destruct err.
Qed.

End Envelope.

(** * Part 17: further properties of the push *)

Section PushRuns.

Context `{Collaborators}.

Implicit Types (p : pushCmd) (w : World) (repo : helm_Repo).

Lemma handlePushResponse_run (resp : Response) w :
  handlePushResponse resp w
  = if (StatusCode resp =? 201)%Z then (Val None, print w ("Done." +:+ newline))
    else (Val (Some match BodyErr resp with
                    | Some e => e
                    | None => getChartmuseumError (Body resp) (StatusCode resp)
                    end), w).
Proof.
  unfold handlePushResponse, ioutil_ReadAll.
  destruct (StatusCode resp =? 201)%Z; [reflexivity |]. by destruct (BodyErr resp).
Qed.

(** Lines 238-249, step by step. *)
Lemma push_upload_run p (chart : Chart) (client : Client) tmp w :
  push_upload p chart client tmp w
  = match helm_CreateChartPackage chart tmp (fs w) with
    | (inl e, m) => (Val (Some e), set_fs w m)
    | (inr path, m) =>
        match Client_UploadChartPackage client path (forceUpload p)
                (print (set_fs w m) (pushing_line path (repoName p))) with
        | inl e =>
            (Val (Some e),
             log (print (set_fs w m) (pushing_line path (repoName p)))
               (EvUpload path (forceUpload p)))
        | inr resp =>
            handlePushResponse resp
              (log (print (set_fs w m) (pushing_line path (repoName p)))
                 (EvUpload path (forceUpload p)))
        end
    end.
Proof.
  unfold push_upload, bind_err, bind, call_CreateChartPackage, call_UploadChartPackage,
    fmt_Print, ret, pushing_line.
  destruct (helm_CreateChartPackage chart tmp (fs w)) as [[e|path] m]; [reflexivity |].
  cbv beta iota.
  by destruct (Client_UploadChartPackage client path (forceUpload p) _).
Qed.



Lemma push_settings_options p repo :
  push_client_options (push_settings p repo) repo = push_client_options p repo.
Proof. unfold push_settings. by destruct (looks_like_URL (repoName p)). Qed.

(** [push], step by step. *)
Lemma push_run p w :
  push p w
  = match push_locate p w with
    | (None, err) =>
        if looks_like_URL (repoName p) then (Panic nil_dereference, w)
        else match err with
             | Some e => (Val (Some e), w)
             | None =>
                 match helm_GetChartByName (chartName p) w with
                 | inl e => (Val (Some e), w)
                 | inr _ => (Panic nil_dereference, w)
                 end
             end
    | (Some repo, Some e) => (Val (Some e), w)
    | (Some repo, None) =>
        match helm_GetChartByName (chartName p) w with
        | inl e => (Val (Some e), w)
        | inr chart =>
            match cm_NewClient (push_client_options p repo) w with
            | inl e => (Val (Some e), log w (EvNewClient (push_client_options p repo)))
            | inr client =>
                match ioutil_TempDir "" "helm-push-"
                        (log w (EvNewClient (push_client_options p repo))) with
                | (Val (inl e), w1) => (Val (Some e), w1)
                | (Val (inr tmp), w1) =>
                    defer (os_RemoveAll tmp)
                      (push_upload (push_settings p repo) (push_chart p chart) client tmp) w1
                | (Panic msg, w1) => (Panic msg, w1)
                end
            end
        end
    end.
Proof.
  unfold push, push_locate, push_settings, push_chart, bind_err, bind, deref,
    call_GetRepoByName, call_GetChartByName, call_NewClient, ret, panic.
  destruct (looks_like_URL (repoName p)).
  - destruct (helm_TempRepoFromURL (repoName p)) as [[repo|] [e|]]; try reflexivity.
    cbn [chartName set_repoName].
    destruct (helm_GetChartByName (chartName p) w) as [e|chart]; [reflexivity |].
    change (mkClientOptions _ _ _ _ _ _ _ _ _ _) with (push_client_options p repo).
    destruct (cm_NewClient (push_client_options p repo) w) as [e|client]; [reflexivity |].
    cbv beta iota.
    by destruct (ioutil_TempDir "" "helm-push-" _) as [[[e|tmp]|msg] w1].
  - destruct (helm_GetRepoByName (repoName p) w) as [[repo|] [e|]]; cbn [fst snd];
      try reflexivity.
    + destruct (helm_GetChartByName (chartName p) w) as [e|chart]; [reflexivity |].
      change (mkClientOptions _ _ _ _ _ _ _ _ _ _) with (push_client_options p repo).
      destruct (cm_NewClient (push_client_options p repo) w) as [e|client]; [reflexivity |].
      cbv beta iota.
      by destruct (ioutil_TempDir "" "helm-push-" _) as [[[e|tmp]|msg] w1].
    + by destruct (helm_GetChartByName (chartName p) w).
Qed.

(** The ways through [push]: to show a property of a run, show it for
    a nil descriptor, for an error of the locator, for an error of the
    chart, for an error of the client, for an error of the directory, and
    for the run of the upload followed by the removal. *)
Lemma push_cases p w (P : Res (option error) * World -> Prop) :
  (looks_like_URL (repoName p) = true -> fst (push_locate p w) = None ->
     P (Panic nil_dereference, w)) ->
  (forall e,
     (looks_like_URL (repoName p) = true -> fst (push_locate p w) <> None) ->
     snd (push_locate p w) = Some e -> P (Val (Some e), w)) ->
  (forall e,
     (looks_like_URL (repoName p) = true -> fst (push_locate p w) <> None) ->
     snd (push_locate p w) = None ->
     helm_GetChartByName (chartName p) w = inl e -> P (Val (Some e), w)) ->
  (forall chart,
     looks_like_URL (repoName p) = false -> push_locate p w = (None, None) ->
     helm_GetChartByName (chartName p) w = inr chart -> P (Panic nil_dereference, w)) ->
  (forall repo chart e,
     push_locate p w = (Some repo, None) ->
     helm_GetChartByName (chartName p) w = inr chart ->
     cm_NewClient (push_client_options p repo) w = inl e ->
     P (Val (Some e), log w (EvNewClient (push_client_options p repo)))) ->
  (forall repo chart client e,
     push_locate p w = (Some repo, None) ->
     helm_GetChartByName (chartName p) w = inr chart ->
     cm_NewClient (push_client_options p repo) w = inr client ->
     ioutil_TempDir "" "helm-push-" (log w (EvNewClient (push_client_options p repo)))
     = (Val (inl e), log w (EvNewClient (push_client_options p repo))) ->
     P (Val (Some e), log w (EvNewClient (push_client_options p repo)))) ->
  (forall repo chart client tmp,
     push_locate p w = (Some repo, None) ->
     helm_GetChartByName (chartName p) w = inr chart ->
     cm_NewClient (push_client_options p repo) w = inr client ->
     ioutil_TempDir "" "helm-push-" (log w (EvNewClient (push_client_options p repo)))
     = (Val (inr tmp), push_workspace p repo tmp w) ->
     tmp <> "" ->
     P (fst (push_upload (push_settings p repo) (push_chart p chart) client tmp
               (push_workspace p repo tmp w)),
        snd (os_RemoveAll tmp
               (snd (push_upload (push_settings p repo) (push_chart p chart) client tmp
                       (push_workspace p repo tmp w)))))) ->
  P (push p w).
Proof.
  intros Hnil Hlocate Hchart Hnil' Hclient Hdir Hrun.
  rewrite push_run.
  destruct (push_locate p w) as [[repo|] err] eqn:Hloc; cbn [fst snd] in *.
  - destruct err as [e|]; [by apply Hlocate |].
    destruct (helm_GetChartByName (chartName p) w) as [e|chart] eqn:Hc; [by apply Hchart |].
    destruct (cm_NewClient (push_client_options p repo) w) as [e|client] eqn:Hcl;
      [by eapply Hclient |].
    destruct (ioutil_TempDir "" "helm-push-" _) as [rt wt] eqn:Htmp.
    pose proof Htmp as Hshape.
    apply ioutil_TempDir_run in Hshape as [(e & -> & ->)|(tmp & -> & Hne & ->)].
    + by eapply Hdir.
    + unfold defer.
      specialize (Hrun repo chart client tmp eq_refl eq_refl Hcl Htmp Hne).
      unfold push_workspace in Hrun.
      by destruct (push_upload _ _ _ tmp _).
  - destruct (looks_like_URL (repoName p)) eqn:Hurl; [by apply Hnil |].
    destruct err as [e|]; [by apply Hlocate |].
    destruct (helm_GetChartByName (chartName p) w) as [e|chart] eqn:Hc;
      [by apply Hchart | by eapply Hnil'].
Qed.

Lemma os_RemoveAll_frame tmp w :
  env (snd (os_RemoveAll tmp w)) = env w
  /\ home (snd (os_RemoveAll tmp w)) = home w
  /\ stdout (snd (os_RemoveAll tmp w)) = stdout w.
Proof. unfold os_RemoveAll. by destruct (String.eqb tmp ""). Qed.

(** What the upload leaves: the file system after the packaging, the
    events and the output it added, and its result. *)
Lemma push_upload_world p (chart : Chart) (client : Client) tmp w :
  exists m evs out,
    snd (push_upload p chart client tmp w)
    = mkWorld (env w) (home w) m (stdout w +:+ out) (trace w ++ evs)
    /\ m = snd (helm_CreateChartPackage chart tmp (fs w))
    /\ (exists res, fst (push_upload p chart client tmp w) = Val res)
    /\ (evs = [] /\ out = "" /\ fst (push_upload p chart client tmp w) <> Val None
        \/ exists path,
             evs = [EvUpload path (forceUpload p)]
             /\ (out = pushing_line path (repoName p)
                 /\ fst (push_upload p chart client tmp w) <> Val None
                 \/ out = pushing_line path (repoName p) +:+ "Done." +:+ newline
                    /\ fst (push_upload p chart client tmp w) = Val None)).
Proof.
  rewrite push_upload_run.
  destruct (helm_CreateChartPackage chart tmp (fs w)) as [[e|path] m]; cbn [snd fst].
  { exists m, [], "". rewrite app_nil_r, append_nil_r.
    split; [by destruct w |]. split; [done |]. split; [by eexists |]. by left. }
  destruct (Client_UploadChartPackage client path (forceUpload p) _) as [e|resp]; cbn [snd fst].
  { eexists m, _, _. split; [reflexivity |]. split; [done |]. split; [by eexists |].
    right. exists path. split; [done |]. by left. }
  rewrite handlePushResponse_run.
  destruct (StatusCode resp =? 201)%Z; cbn [snd fst].
  - eexists m, _, _. split; [unfold print, log; cbn; by rewrite append_assoc |].
    split; [done |]. split; [by eexists |].
    right. exists path. split; [done |]. by right.
  - eexists m, _, _. split; [reflexivity |]. split; [done |]. split; [by eexists |].
    right. exists path. split; [done |]. by left.
Qed.

(** The events one run of [push] adds. *)
Lemma push_adds p w :
  exists evs,
    trace (snd (push p w)) = (trace w ++ evs)%list /\ push_events (forceUpload p) evs.
Proof.
  apply (push_cases p w (fun rw =>
    exists evs, trace (snd rw) = (trace w ++ evs)%list /\ push_events (forceUpload p) evs));
    try (intros; exists []; split; [by rewrite app_nil_r | constructor]);
    try (intros; eexists [_]; split; [reflexivity | constructor]).
  intros repo chart client tmp _ _ _ _ Hne. cbn [snd].
  rewrite os_RemoveAll_trace by done.
  destruct (push_upload_world (push_settings p repo) (push_chart p chart) client tmp
              (push_workspace p repo tmp w)) as (m & evs & out & -> & _ & _ & Hevs).
  assert (Hforce : forceUpload (push_settings p repo) = forceUpload p).
  { unfold push_settings. by destruct (looks_like_URL (repoName p)). }
  rewrite Hforce in Hevs. cbn [trace push_workspace log set_fs].
  destruct Hevs as [(-> & _)|(path & -> & _)].
  - eexists. split; [by rewrite <- !app_assoc | constructor].
  - eexists. split; [by rewrite <- !app_assoc | constructor].
Qed.


(** X9: before the repository is located and the chart found, [push]
    does nothing: an error of either lookup leaves the world as it was,
    with no client, no directory, no output and no call to the server. *)
Theorem push_needs_both_lookups p w :
  (forall e, snd (push_locate p w) = Some e ->
     (looks_like_URL (repoName p) = true -> fst (push_locate p w) <> None) ->
     push p w = (Val (Some e), w))
  /\ (forall e, snd (push_locate p w) = None ->
        (looks_like_URL (repoName p) = true -> fst (push_locate p w) <> None) ->
        helm_GetChartByName (chartName p) w = inl e ->
        push p w = (Val (Some e), w)).
Proof.
  rewrite push_run. split.
  - intros e Herr Hrepo.
    destruct (push_locate p w) as [[repo|] err]; cbn [fst snd] in *; subst; [done |].
    destruct (looks_like_URL (repoName p)); [by destruct Hrepo | done].
  - intros e Herr Hrepo Hchart.
    destruct (push_locate p w) as [[repo|] err]; cbn [fst snd] in *; subst;
      rewrite Hchart; [done |].
    destruct (looks_like_URL (repoName p)); [by destruct Hrepo | done].
Qed.

(** X10: what one run of [push] does, in order: at most one client is
    made, then at most one directory, then at most one upload, with the
    force flag of the command line, and a directory that was made is
    removed last. The environment is not changed, and no download is
    asked for. *)
Theorem push_effects_in_order p w :
  exists evs,
    trace (snd (push p w)) = (trace w ++ evs)%list
    /\ push_events (forceUpload p) evs
    /\ env (snd (push p w)) = env w
    /\ home (snd (push p w)) = home w.
Proof.
  destruct (push_adds p w) as (evs & Htrace & Hshape).
  exists evs. split; [exact Htrace |]. split; [exact Hshape |].
  apply (push_cases p w (fun rw => env (snd rw) = env w /\ home (snd rw) = home w));
    try (intros; by split).
  intros repo chart client tmp _ _ _ _ _. cbn [snd].
  destruct (os_RemoveAll_frame tmp
              (snd (push_upload (push_settings p repo) (push_chart p chart) client tmp
                      (push_workspace p repo tmp w)))) as (-> & -> & _).
  destruct (push_upload_world (push_settings p repo) (push_chart p chart) client tmp
              (push_workspace p repo tmp w)) as (m & evs' & out & -> & _).
  by split.
Qed.

(** X11: the output of [push]. A run that succeeds has printed the line
    of the upload and then [Done.], and nothing else; the repository on
    that line is the URL of the descriptor when the identifier was a URL.
    A run that fails has printed nothing, or the line of the upload
    only. *)
Theorem push_output p w :
  (fst (push p w) = Val None ->
     exists repo path,
       push_locate p w = (Some repo, None)
       /\ stdout (snd (push p w))
          = stdout w
            +:+ pushing_line path (if looks_like_URL (repoName p) then URL repo
                                   else repoName p)
            +:+ "Done." +:+ newline)
  /\ (fst (push p w) <> Val None ->
        stdout (snd (push p w)) = stdout w
        \/ exists path name, stdout (snd (push p w)) = stdout w +:+ pushing_line path name).
Proof.
  apply (push_cases p w (fun rw =>
    (fst rw = Val None ->
       exists repo path,
         push_locate p w = (Some repo, None)
         /\ stdout (snd rw)
            = stdout w
              +:+ pushing_line path (if looks_like_URL (repoName p) then URL repo
                                     else repoName p)
              +:+ "Done." +:+ newline)
    /\ (fst rw <> Val None ->
          stdout (snd rw) = stdout w
          \/ exists path name, stdout (snd rw) = stdout w +:+ pushing_line path name)));
    try (intros; split; [done | by left]).
  intros repo chart client tmp Hloc _ _ _ _. cbn [fst snd].
  destruct (os_RemoveAll_frame tmp
              (snd (push_upload (push_settings p repo) (push_chart p chart) client tmp
                      (push_workspace p repo tmp w)))) as (_ & _ & ->).
  destruct (push_upload_world (push_settings p repo) (push_chart p chart) client tmp
              (push_workspace p repo tmp w)) as (m & evs & out & -> & _ & _ & Hout).
  assert (Hname : repoName (push_settings p repo)
                  = if looks_like_URL (repoName p) then URL repo else repoName p).
  { unfold push_settings. by destruct (looks_like_URL (repoName p)). }
  rewrite Hname in Hout. cbn [stdout push_workspace log set_fs].
  destruct Hout as [(_ & -> & Hfail)|(path & _ & [[-> Hfail]|[-> Hok]])].
  - split; [done |]. intros _. left. by rewrite append_nil_r.
  - split; [done |]. intros _. right. by eexists _, _.
  - split; [| done]. intros _. by exists repo, path.
Qed.

(** X12: the options of the client that [push] makes. The user name and
    the password of the command line or the environment replace those of
    the descriptor, each on its own, only when they are not empty; the
    other options are the settings as they are. *)
Theorem push_client_credentials p w repo (chart : Chart) :
  push_locate p w = (Some repo, None) ->
  helm_GetChartByName (chartName p) w = inr chart ->
  exists opts evs,
    trace (snd (push p w)) = (trace w ++ EvNewClient opts :: evs)%list
    /\ cm_Username opts = (if String.eqb (username p) "" then Username repo else username p)
    /\ cm_Password opts = (if String.eqb (password p) "" then Password repo else password p)
    /\ cm_AccessToken opts = accessToken p /\ cm_AuthHeader opts = authHeader p
    /\ cm_ContextPath opts = contextPath p /\ cm_CAFile opts = caFile p
    /\ cm_CertFile opts = certFile p /\ cm_KeyFile opts = keyFile p
    /\ cm_InsecureSkipVerify opts = InsecureSkipVerify p.
Proof.
  intros Hloc Hchart.
  assert (Hopts : exists evs,
    trace (snd (push p w)) = (trace w ++ EvNewClient (push_client_options p repo) :: evs)%list).
  { rewrite push_run, Hloc, Hchart.
    destruct (cm_NewClient (push_client_options p repo) w) as [e|client]; [by exists [] |].
    destruct (ioutil_TempDir "" "helm-push-" _) as [rt wt] eqn:Htmp.
    apply ioutil_TempDir_run in Htmp as [(e & -> & ->)|(tmp & -> & Hne & ->)];
      [by exists [] |].
    unfold defer.
    destruct (push_upload_world (push_settings p repo) (push_chart p chart) client tmp
                (push_workspace p repo tmp w)) as (m & evs & out & Hworld & _).
    unfold push_workspace in Hworld.
    destruct (push_upload _ _ _ tmp _) as [ru wu]. cbn [snd] in *. subst wu.
    rewrite os_RemoveAll_trace by done. cbn [trace log set_fs].
    eexists. rewrite <- !app_assoc. reflexivity. }
  destruct Hopts as [evs Htrace].
  exists (push_client_options p repo), evs. split; [exact Htrace |].
  unfold push_client_options; cbn.
  by destruct (String.eqb (username p) ""), (String.eqb (password p) "").
Qed.




(** X15: a stored URL without [cm://] is given to the client as it is,
    whatever [useHTTP] says: the setting chooses the scheme only of a URL
    that carries the marker. *)
Theorem push_url_without_marker p w repo (chart : Chart) :
  strings_Index (URL repo) "cm://" = None ->
  push_url p repo = URL repo
  /\ (push_locate p w = (Some repo, None) ->
      helm_GetChartByName (chartName p) w = inr chart ->
      exists opts evs,
        trace (snd (push p w)) = (trace w ++ EvNewClient opts :: evs)%list
        /\ cm_URL opts = URL repo).
Proof.
  intros Hnone.
  assert (Hurl : push_url p repo = URL repo).
  { unfold push_url, strings_Replace. destruct (useHTTP p); cbn; by rewrite Hnone. }
  split; [exact Hurl |]. intros Hloc Hchart.
  destruct (push_client_url p w repo chart Hloc Hchart) as (opts & evs & Htrace & Hopts).
  exists opts, evs. split; [exact Htrace | by rewrite Hopts].
Qed.

End PushRuns.

(** * Part 18: further properties of the download and of the entry point *)

Section DownloadRuns.

Context `{Collaborators}.

Implicit Types (p : pushCmd) (w : World) (u : url_URL).

Lemma handleDownloadResponse_run (resp : Response) w :
  handleDownloadResponse resp w
  = match BodyErr resp with
    | Some e => (Val (Some e), w)
    | None =>
        if (StatusCode resp =? 200)%Z then (Val None, print w (Body resp))
        else (Val (Some (getChartmuseumError (Body resp) (StatusCode resp))), w)
    end.
Proof.
  unfold handleDownloadResponse, ioutil_ReadAll.
  destruct (BodyErr resp); [reflexivity |]. by destruct (StatusCode resp =? 200)%Z.
Qed.

(** Lines 274-302, step by step. *)
Lemma download_fetch_run p u filePath w :
  download_fetch p u filePath w
  = match cm_NewClient
            (download_client_options p
               (url_String (set_Scheme u (if useHTTP p then "http" else "https")))) w with
    | inl e =>
        (Val (Some e),
         log w (EvNewClient
                  (download_client_options p
                     (url_String (set_Scheme u (if useHTTP p then "http" else "https"))))))
    | inr client =>
        match Client_DownloadFile client filePath
                (log w (EvNewClient
                          (download_client_options p
                             (url_String (set_Scheme u (if useHTTP p then "http"
                                                        else "https")))))) with
        | inl e =>
            (Val (Some e),
             log (log w (EvNewClient
                           (download_client_options p
                              (url_String (set_Scheme u (if useHTTP p then "http"
                                                         else "https"))))))
               (EvDownload filePath))
        | inr resp =>
            handleDownloadResponse resp
              (log (log w (EvNewClient
                             (download_client_options p
                                (url_String (set_Scheme u (if useHTTP p then "http"
                                                           else "https"))))))
                 (EvDownload filePath))
        end
    end.
Proof.
  unfold download_fetch, bind_err, bind, call_NewClient, call_DownloadFile, ret,
    download_client_options.
  destruct (cm_NewClient _ w) as [e|client]; [reflexivity |]. cbv beta iota.
  by destruct (Client_DownloadFile client filePath _).
Qed.

(** What the fetch leaves: the events and the output it added, and its
    result. *)
Lemma download_fetch_world p u filePath w :
  exists res evs out,
    download_fetch p u filePath w
    = (Val res, mkWorld (env w) (home w) (fs w) (stdout w +:+ out) (trace w ++ evs))
    /\ (exists opts, evs = [EvNewClient opts]
        \/ evs = [EvNewClient opts; EvDownload filePath])
    /\ (res = None /\ (exists opts, evs = [EvNewClient opts; EvDownload filePath])
        \/ res <> None /\ out = "").
Proof.
  rewrite download_fetch_run.
  destruct (cm_NewClient _ w) as [e|client].
  { eexists _, _, "". rewrite append_nil_r. split; [reflexivity |].
    split; [eexists; by left | by right]. }
  destruct (Client_DownloadFile client filePath _) as [e|resp].
  { eexists _, _, "". rewrite append_nil_r.
    split; [unfold log; cbn; by rewrite <- app_assoc |].
    split; [eexists; by right | by right]. }
  rewrite handleDownloadResponse_run.
  destruct (BodyErr resp) as [e|].
  { eexists _, _, "". rewrite append_nil_r.
    split; [unfold log; cbn; by rewrite <- app_assoc |].
    split; [eexists; by right | by right]. }
  destruct (StatusCode resp =? 200)%Z.
  - eexists _, _, (Body resp).
    split; [unfold log, print; cbn; by rewrite <- app_assoc |].
    split; [eexists; by right |]. left. split; [done | by eexists].
  - eexists _, _, "". rewrite append_nil_r.
    split; [unfold log; cbn; by rewrite <- app_assoc |].
    split; [eexists; by right | by right].
Qed.


(** The parts of a string between the occurrences of a byte do not hold
    that byte. *)
Lemma split_on_parts_free c s : Forall (free_of c) (split_on c s).
Proof.
  induction s as [|a s IH]; cbn [split_on]; [by repeat constructor |].
  destruct (Ascii.eqb_spec a c) as [->|Hne]; [by constructor |].
  destruct IH as [|x rest Hx Hrest]; [by repeat constructor |].
  constructor; [by split | done].
Qed.

(** [download] refuses exactly the paths without a slash. *)
Lemma download_split_None path :
  download_split path = None <-> strings_Index path "/" = None.
Proof.
  unfold download_split.
  change "/" with (String "/" "") at 1 2 3. rewrite strings_Split_char.
  rewrite (strings_Index_char_None "/"). split.
  - destruct (Nat.leb_spec (length (split_on "/" path)) 1) as [Hle|]; [| by case_match].
    intros _. by apply split_on_length_free.
  - intros Hfree. by rewrite (split_on_free _ _ Hfree).
Qed.

(** X16: [download] refuses a URL whose path has no slash, before any
    client is made: the error names the URL and the world is as it was.
    For a [cm://] URL these are the URLs without a path. A path with a
    slash is never refused. *)
Theorem download_refuses_path_without_slash p fileURL u w :
  url_Parse fileURL = inr u ->
  (strings_Index (Path u) "/" = None ->
     download p fileURL w = (Val (Some ("invalid file url: " +:+ fileURL)), w))
  /\ (strings_Index (Path u) "/" <> None ->
        exists base file, download p fileURL = download_fetch p (set_Path u base) file)
  /\ (strings_HasPrefix fileURL "cm://" = true ->
        strings_Index (Path u) "/" = None <-> Path u = "").
Proof.
  intros Hparse. unfold download. rewrite Hparse. split; [| split].
  - intros Hnone. apply download_split_None in Hnone. by rewrite Hnone.
  - intros Hsome. destruct (download_split (Path u)) as [[base file]|] eqn:Hsplit.
    + by exists base, file.
    + by apply download_split_None in Hsplit.
  - intros Hcm. split; [| by intros ->].
    intros Hnone.
    destruct (url_Parse_cm_path fileURL u Hcm Hparse) as [Hempty|Hrooted]; [done |].
    apply strings_HasPrefix_split in Hrooted. rewrite Hrooted in Hnone.
    cbn in Hnone. discriminate.
Qed.

(** X17: the result of the decomposition. The file asked of the server
    has no slash, or is [charts/] followed by a name without a slash, and
    the path left to the endpoint is the beginning of the path of the
    URL. *)
Theorem download_split_shape path base file :
  download_split path = Some (base, file) ->
  (strings_Index file "/" = None
   \/ exists name, file = "charts/" +:+ name /\ strings_Index name "/" = None)
  /\ strings_HasPrefix path base = true.
Proof.
  intros Hsplit.
  assert (Hlen : 2 <= length (split_on "/" path)).
  { destruct (le_lt_dec 2 (length (split_on "/" path))) as [|Hlt]; [done |].
    assert (Hnone : download_split path = None).
    { apply download_split_None, (strings_Index_char_None "/"), split_on_length_free. lia. }
    by rewrite Hnone in Hsplit. }
  destruct (two_last _ Hlen) as (pre & x & y & Hparts).
  pose proof (split_on_parts_free "/" path) as Hfree. rewrite Hparts in Hfree.
  apply Forall_app in Hfree as [_ Hxy].
  apply Forall_cons in Hxy as [_ Hy]. apply Forall_cons in Hy as [Hy _].
  pose proof (strings_Join_split_on "/" path) as Hjoin. rewrite Hparts in Hjoin.
  rewrite (download_split_two_last _ _ _ _ Hparts) in Hsplit.
  apply (strings_Index_char_None "/") in Hy.
  destruct (String.eqb_spec x "charts") as [->|Hx]; injection Hsplit as <- <-.
  - split; [right; by exists y |].
    destruct pre as [|p0 pre]; [done |].
    change ((p0 :: pre) ++ ["charts"; y])%list
      with ((p0 :: pre) ++ (["charts"] ++ [y]))%list in Hjoin.
    rewrite (assoc (++)%list) in Hjoin.
    rewrite !strings_Join_snoc in Hjoin by (done || by destruct pre).
    rewrite <- Hjoin, !append_assoc. apply strings_HasPrefix_app.
  - split; [by left |].
    change (pre ++ [x; y])%list with (pre ++ ([x] ++ [y]))%list in Hjoin.
    rewrite (assoc (++)%list) in Hjoin.
    rewrite strings_Join_snoc in Hjoin by by destruct pre.
    rewrite <- Hjoin. apply strings_HasPrefix_app.
Qed.

(** The events one run of [download] adds. *)
Lemma download_adds p fileURL w :
  exists evs,
    trace (snd (download p fileURL w)) = (trace w ++ evs)%list /\ download_events evs.
Proof.
  unfold download.
  destruct (url_Parse fileURL) as [e|u]; [exists []; split; [by rewrite app_nil_r | constructor] |].
  destruct (download_split (Path u)) as [[base file]|];
    [| exists []; split; [by rewrite app_nil_r | constructor]].
  destruct (download_fetch_world p (set_Path u base) file w)
    as (res & evs & out & -> & [opts [->| ->]] & _);
    eexists; (split; [reflexivity | constructor]).
Qed.


End DownloadRuns.

Section EntryPoint.

Context `{Collaborators}.

Implicit Types (p : pushCmd) (w : World).

Lemma lookup_events_no_network w : Forall (fun e => is_network e = false) (lookup_events w).
Proof.
  unfold lookup_events. destruct (home w); [by repeat constructor |].
  destruct (fs w !! _); by repeat constructor.
Qed.

Lemma push_events_network force evs :
  push_events force evs ->
  length (filter is_network evs) <= 1
  /\ forall f, ~ In (EvDownload f) evs.
Proof.
  intros [| | |]; (split; [vm_compute; lia |]); intros f Hin; cbn in Hin;
    decompose [or] Hin; by simplify_eq.
Qed.

Lemma download_events_network evs :
  download_events evs ->
  length (filter is_network evs) <= 1
  /\ forall path force, ~ In (EvUpload path force) evs.
Proof.
  intros [| |]; (split; [vm_compute; lia |]); intros path force Hin; cbn in Hin;
    decompose [or] Hin; by simplify_eq.
Qed.

Lemma filter_no_network evs :
  Forall (fun e => is_network e = false) evs -> filter is_network evs = [].
Proof.
  induction 1 as [|e evs He _ IH]; [done |].
  rewrite filter_cons. destruct (decide (is_network e)) as [Hn|_]; [| done].
  by rewrite He in Hn.
Qed.

(** The events of the resolver followed by a run. *)
Lemma after_setFieldsFromEnv (run : pushCmd -> M (option error)) p w :
  exists p' evs0,
    Forall (fun e => is_network e = false) evs0
    /\ trace (snd (bind (setFieldsFromEnv p) run w))
       = trace (snd (run p' (with_events w evs0)))
    /\ trace (with_events w evs0) = (trace w ++ evs0)%list.
Proof.
  destruct (setFieldsFromEnv_world p w) as (p' & evs0 & Hrun & _ & Hevs).
  exists p', evs0. unfold bind. rewrite Hrun. split; [| by split].
  destruct Hevs as [[-> _]|[-> _]]; [constructor | apply lookup_events_no_network].
Qed.

(** X19: the calls to the server in one run of the command. There is at
    most one; an upload is made only for two arguments, and a download is
    asked for only for four arguments of which the last starts with
    [cm://]. *)
Theorem RunE_network_calls p (args : list string) w :
  exists evs,
    trace (snd (RunE p args w)) = (trace w ++ evs)%list
    /\ length (filter is_network evs) <= 1
    /\ (forall path force, In (EvUpload path force) evs -> length args = 2)
    /\ (forall filePath, In (EvDownload filePath) evs ->
          length args = 4 /\ strings_HasPrefix (nth 3 args "") "cm://" = true).
Proof.
  assert (Hdownload :
    length args = 4 -> strings_HasPrefix (nth 3 args "") "cm://" = true ->
    exists evs,
      trace (snd (bind (setFieldsFromEnv p) (fun q => download q (nth 3 args "")) w))
      = (trace w ++ evs)%list
      /\ length (filter is_network evs) <= 1
      /\ (forall path force, In (EvUpload path force) evs -> length args = 2)
      /\ (forall filePath, In (EvDownload filePath) evs ->
            length args = 4 /\ strings_HasPrefix (nth 3 args "") "cm://" = true)).
  { intros H4 Hcm.
    destruct (after_setFieldsFromEnv (fun q => download q (nth 3 args "")) p w)
      as (p' & evs0 & Hno & -> & Hw0).
    destruct (download_adds p' (nth 3 args "") (with_events w evs0))
      as (evs1 & -> & Hshape).
    apply download_events_network in Hshape as [Hone Hup].
    exists (evs0 ++ evs1)%list. rewrite Hw0, <- app_assoc. split; [done |].
    rewrite filter_app, (filter_no_network _ Hno). split; [done |]. split; [| done].
    intros path force [Hin|Hin]%in_app_iff; [| by destruct (Hup path force)].
    rewrite List.Forall_forall in Hno. by apply Hno in Hin. }
  assert (Hpush :
    length args = 2 ->
    exists evs,
      trace (snd (bind (setFieldsFromEnv
                          (set_repoName (set_chartName p (nth 0 args "")) (nth 1 args "")))
                    push w))
      = (trace w ++ evs)%list
      /\ length (filter is_network evs) <= 1
      /\ (forall path force, In (EvUpload path force) evs -> length args = 2)
      /\ (forall filePath, In (EvDownload filePath) evs ->
            length args = 4 /\ strings_HasPrefix (nth 3 args "") "cm://" = true)).
  { intros H2.
    destruct (after_setFieldsFromEnv push
                (set_repoName (set_chartName p (nth 0 args "")) (nth 1 args "")) w)
      as (p' & evs0 & Hno & -> & Hw0).
    destruct (push_adds p' (with_events w evs0)) as (evs1 & -> & Hshape).
    apply push_events_network in Hshape as [Hone Hdown].
    exists (evs0 ++ evs1)%list. rewrite Hw0, <- app_assoc. split; [done |].
    rewrite filter_app, (filter_no_network _ Hno). split; [done |]. split; [done |].
    intros f [Hin|Hin]%in_app_iff; [| by destruct (Hdown f)].
    rewrite List.Forall_forall in Hno. by apply Hno in Hin. }
  unfold RunE.
  destruct (Nat.eqb_spec (length args) 4) as [H4|H4];
    destruct (strings_HasPrefix (nth 3 args "") "cm://") eqn:Hcm; cbn [andb];
    try (by apply Hdownload);
    (destruct (Nat.eqb_spec (length args) 2) as [H2|H2]; cbn [negb];
     [by apply Hpush |]);
    (exists []; split; [by rewrite app_nil_r |];
     split; [cbn; lia |]; split; [by intros ? ? [] | by intros ? []]).
Qed.

End EntryPoint.

(** * Part 19: the further properties at concrete inputs *)

Section FurtherWitnesses.

#[local] Existing Instance Demo.collaborators.




Lemma setFieldsFromEnv_rejected_boolean_witness :
  exists p',
    fst (setFieldsFromEnv (set_InsecureSkipVerify Demo.flags true) Sample.bare) = Val p'
    /\ InsecureSkipVerify p' = false.
Proof.
  destruct (setFieldsFromEnv_rejected_boolean
              (set_InsecureSkipVerify Demo.flags true) Sample.bare)
    as (p' & w' & Hrun & _ & Hinsecure).
  exists p'. rewrite Hrun. split; [reflexivity |].
  apply (Hinsecure "yes"); [vm_compute; reflexivity | vm_compute; discriminate].
Defined.

Lemma range_Contexts_order_witness :
  range_Contexts Sample.contexts "prod" Demo.flags
  = range_Contexts (rev Sample.contexts) "prod" Demo.flags.
Proof.
  apply range_Contexts_order.
  - apply perm_swap.
  - intros k1 c1 k2 c2 [[= <- <-]|[[= <- <-]|[]]] [[= <- <-]|[[= <- <-]|[]]];
      cbn; intros; done.
Defined.

Lemma getChartmuseumError_reads_envelope_witness :
  getChartmuseumError (error_body "version already exists") 400
  = "400: version already exists".
Proof.
  apply (getChartmuseumError_reads_envelope "version already exists" 400);
    [reflexivity | discriminate].
Defined.

Lemma getChartmuseumError_not_an_object_witness :
  getChartmuseumError "<html>Bad Gateway</html>" 502
  = "502: could not properly parse response JSON: <html>Bad Gateway</html>".
Proof.
  apply (getChartmuseumError_not_an_object "<html>Bad Gateway</html>" 502).
  intros rest Hrest. vm_compute in Hrest. discriminate.
Defined.

Lemma push_needs_both_lookups_witness :
  push (set_repoName Sample.forced "nowhere") Demo.world
  = (Val (Some "no repo named nowhere found"), Demo.world).
Proof.
  apply (proj1 (push_needs_both_lookups (H := Demo.collaborators)
                  (set_repoName Sample.forced "nowhere") Demo.world));
    [reflexivity | discriminate].
Defined.

Lemma push_output_witness :
  exists repo path,
    push_locate Sample.forced Demo.world = (Some repo, None)
    /\ stdout (snd (push Sample.forced Demo.world))
       = pushing_line path "chartmuseum" +:+ "Done." +:+ newline.
Proof.
  apply (proj1 (push_output (H := Demo.collaborators) Sample.forced Demo.world)).
  vm_compute. reflexivity.
Defined.

Lemma push_client_credentials_witness :
  exists opts evs,
    trace (snd (push Sample.forced Demo.world)) = EvNewClient opts :: evs
    /\ cm_Username opts = "carol" /\ cm_Password opts = "secret".
Proof.
  destruct (push_client_credentials (H := Demo.collaborators) Sample.forced Demo.world
              Sample.registered "0.1.0" eq_refl eq_refl)
    as (opts & evs & Htrace & Huser & Hpassword & _).
  exists opts, evs. split; [exact Htrace |]. split; [exact Huser | exact Hpassword].
Defined.


Lemma push_url_without_marker_witness :
  push_url (set_useHTTP Demo.flags true) (mkRepo "https://charts.example.com" "" "")
  = "https://charts.example.com".
Proof.
  apply (proj1 (push_url_without_marker (H := Demo.collaborators)
                  (set_useHTTP Demo.flags true) Demo.world
                  (mkRepo "https://charts.example.com" "" "") "0.1.0" eq_refl)).
Defined.

Lemma download_refuses_path_without_slash_witness :
  download Demo.flags "cm://repo.example.com" Demo.world
  = (Val (Some "invalid file url: cm://repo.example.com"), Demo.world).
Proof.
  apply (proj1 (download_refuses_path_without_slash (H := Demo.collaborators) Demo.flags
                  "cm://repo.example.com"
                  (mkURL "cm" "" None "repo.example.com" "" "" false "" "") Demo.world
                  ltac:(vm_compute; reflexivity))).
  reflexivity.
Defined.

Lemma download_split_shape_witness :
  (strings_Index "charts/x.tgz" "/" = None
   \/ exists name, "charts/x.tgz" = "charts/" +:+ name /\ strings_Index name "/" = None)
  /\ strings_HasPrefix "/a/charts/x.tgz" "/a" = true.
Proof. apply (download_split_shape "/a/charts/x.tgz" "/a" "charts/x.tgz" eq_refl). Defined.

End FurtherWitnesses.
